(** * Session authentication tracker: [AuthenticationManager]

    A shallow embedding of [src/services/authentication/auth_manager.py]
    and the verification of its specification.

    Modelling decisions, all visible in the definitions below.

    - Python [str] values are Rocq [string]s, that is sequences of
      characters whose code point is below 256.  Session identifiers and
      account numbers are only ever compared for equality.
    - [self.authenticated_sessions] is a Python [dict]: a finite map that
      iterates in insertion order.  It is an association list whose keys
      are pairwise distinct ([Dict.wf]); [Dict.set] keeps the place of
      a key that is already there and appends a new one, as Python does.
    - [time.time()] is an effect.  The clock is an oracle [clock : nat -> Q]
      giving the value of its n-th reading, and the state counts the
      readings made so far.  A reading is the rational number denoted by
      the double Python returns.  The difference of two readings is the
      one Python computes: the exact difference rounded to the nearest
      double ([Float64.sub]); comparisons are exact.
    - [self.logger.info] only formats strings and has no influence on the
      store or on any result; it is left out.
    - A conversation is a list of messages shaped as the callers build
      them: a [role], a [content] that is a string, and possibly a list
      of [tool_calls], each naming a function and carrying its arguments
      as a string.  What the scanner does with the decoded arguments is
      modelled on every object [json.loads] can build, with the
      exceptions that arise on the way. *)

From Stdlib Require Import List String Ascii Bool Arith ZArith QArith Qround
  Qabs Qpower Lia Lqa.

Set Warnings "-register-all".
Import ListNotations.

Close Scope Q_scope.
Local Open Scope string_scope.
Local Open Scope list_scope.
Local Open Scope nat_scope.

(** ** Python dictionaries with string keys *)

Module Dict.

Section Operations.
Context {V : Type}.

Definition dict : Type := list (string * V).

(** [items()] and [keys()], in iteration order. *)
Definition items (d : dict) : list (string * V) := d.
Definition keys (d : dict) : list string := map fst d.

(** [d.get(k)]; [Some v] is also the pair "[k in d] and [d[k]] is [v]". *)
Fixpoint get (k : string) (d : dict) : option V :=
  match d with
  | [] => None
  | (k', v) :: rest => if String.eqb k' k then Some v else get k rest
  end.

(** [k in d] *)
Definition contains (k : string) (d : dict) : bool :=
  match get k d with Some _ => true | None => false end.

(** [d[k] = v] *)
Fixpoint set (k : string) (v : V) (d : dict) : dict :=
  match d with
  | [] => [(k, v)]
  | (k', v') :: rest =>
      if String.eqb k' k then (k, v) :: rest else (k', v') :: set k v rest
  end.

(** [del d[k]], only ever reached under the guard [k in d]. *)
Fixpoint del (k : string) (d : dict) : dict :=
  match d with
  | [] => []
  | (k', v') :: rest =>
      if String.eqb k' k then rest else (k', v') :: del k rest
  end.

(** The invariant of a Python dictionary: no key occurs twice. *)
Definition wf (d : dict) : Prop := NoDup (keys d).

End Operations.

Arguments dict V : clear implicits.

End Dict.

(** ** Comparison of clock readings *)

(** [x < y] on rationals, as a boolean; the standard library has [Qle_bool]
    for [<=]. *)
Definition Qlt_bool (x y : Q) : bool :=
  (Qnum x * QDen y <? Qnum y * QDen x)%Z.

(** ** Double-precision subtraction

    [time.time()] returns a double, and the difference of two doubles is a
    double again: the exact difference rounded to the nearest double, to
    the one with the even significand when two are as near, to an infinity
    beyond the range.  A finite double is the rational it denotes. *)

Module Float64.

(** [2 ^ e], for any integer [e]. *)
Definition pow2 (e : Z) : Q := Qpower 2 e.

(** The binary exponent of a positive [x]: the [e] with
    [2 ^ e <= x < 2 ^ (e + 1)]. *)
Definition ilog2 (x : Q) : Z :=
  let e0 := (Z.log2 (Qnum x) - Z.log2 (Zpos (Qden x)))%Z in
  if Qle_bool (pow2 e0) x then e0 else (e0 - 1)%Z.

(** The integer nearest to [m]; halfway between two, the even one. *)
Definition round_half_even (m : Q) : Z :=
  let f := Qfloor m in
  match Qcompare (m - inject_Z f)%Q (1 # 2)%Q with
  | Lt => f
  | Gt => (f + 1)%Z
  | Eq => if Z.even f then f else (f + 1)%Z
  end.

(** What an operation on finite doubles gives: a finite double or an
    infinity. *)
Inductive value : Type :=
| Finite (q : Q)
| Infinity (negative : bool).

(** Rounding to binary64, to nearest, ties to even: 53 significant bits,
    no spacing below [2 ^ -1074], an infinity from [2 ^ 1024] on. *)
Definition round (x : Q) : value :=
  if Qeq_bool x 0 then Finite 0
  else
    let e := ilog2 (Qabs x) in
    let qe := Z.max (e - 52) (-1074)%Z in
    let n := round_half_even (x / pow2 qe)%Q in
    let r := (inject_Z n * pow2 qe)%Q in
    if Qle_bool (pow2 1024) (Qabs r) then Infinity (Qlt_bool x 0)
    else Finite r.

(** [x - y] on doubles. *)
Definition sub (x y : Q) : value := round (x - y)%Q.

(** [v <= q] and [q < v], for a result [v] and a constant [q]. *)
Definition leb (v : value) (q : Q) : bool :=
  match v with
  | Finite r => Qle_bool r q
  | Infinity negative => negative
  end.

Definition ltb (q : Q) (v : value) : bool :=
  match v with
  | Finite r => Qlt_bool q r
  | Infinity negative => negb negative
  end.
End Float64.

Arguments Float64.round : simpl never.
Arguments Float64.sub : simpl never.
Arguments Float64.leb : simpl never.
Arguments Float64.ltb : simpl never.

(** From 512 to 1024 the doubles are [2 ^ -43] apart; half of that is
    [2 ^ -44]. *)
Definition half_ulp_900 : Q := (1 # 17592186044416)%Q.

(** ** The manager *)

(** [SESSION_TIMEOUT = 15 * 60] *)
Definition SESSION_TIMEOUT : Q := (15 * 60)%Q.

(** A session record is the tuple [(account_number, last_activity)]. *)
Definition session_record : Type := (string * Q)%type.

(** The state an [AuthenticationManager] runs in: its dictionary, and how
    many times [time.time()] has been called so far. *)
Record world : Type := mkWorld {
  authenticated_sessions : Dict.dict session_record;
  time_calls : nat
}.

(** [__init__]: an empty dictionary. *)
Definition init (calls : nat) : world :=
  {| authenticated_sessions := []; time_calls := calls |}.

(** A method is a state transformer returning a result. *)
Definition M (A : Type) : Type := world -> A * world.

Definition ret {A : Type} (a : A) : M A := fun w => (a, w).

Definition bind {A B : Type} (m : M A) (f : A -> M B) : M B :=
  fun w => let (a, w') := m w in f a w'.

Declare Scope method_scope.
Delimit Scope method_scope with method.
Notation "x <- m ;; k" := (bind m (fun x => k))
  (at level 100, m at next level, right associativity) : method_scope.
Notation "m ;; k" := (bind m (fun _ => k))
  (at level 100, right associativity) : method_scope.
Local Open Scope method_scope.

Definition get_sessions : M (Dict.dict session_record) :=
  fun w => (authenticated_sessions w, w).

Definition put_sessions (d : Dict.dict session_record) : M unit :=
  fun w => (tt, {| authenticated_sessions := d; time_calls := time_calls w |}).

(** The result of a method and the state it leaves. *)
Definition result {A : Type} (r : A * world) : A := fst r.
Definition after {A : Type} (r : A * world) : world := snd r.

Section Manager.

(** [clock n] is what the n-th call of [time.time()] returns. *)
Variable clock : nat -> Q.

Definition time_time : M Q :=
  fun w => (clock (time_calls w),
            {| authenticated_sessions := authenticated_sessions w;
               time_calls := S (time_calls w) |}).

Definition authenticate_session (session_id account_number : string)
  : M unit :=
  now <- time_time ;;
  d <- get_sessions ;;
  put_sessions (Dict.set session_id (account_number, now) d).

Definition get_authenticated_account (session_id : string)
  : M (option string) :=
  d <- get_sessions ;;
  match Dict.get session_id d with
  | Some (account_number, _) => ret (Some account_number)
  | None => ret None
  end.

Definition is_authenticated (session_id : string) : M bool :=
  d <- get_sessions ;;
  match Dict.get session_id d with
  | None => ret false
  | Some (_, last_activity) =>
      now <- time_time ;;
      ret (Float64.leb (Float64.sub now last_activity) SESSION_TIMEOUT)
  end.

Definition update_session_activity (session_id : string) : M unit :=
  d <- get_sessions ;;
  match Dict.get session_id d with
  | Some (account_number, _) =>
      now <- time_time ;;
      put_sessions (Dict.set session_id (account_number, now) d)
  | None => ret tt
  end.

(** First loop of [cleanup_expired_sessions]: the identifiers of the
    snapshot [list(items())] whose record is stale at [current_time]. *)
Fixpoint collect_expired (current_time : Q)
    (snapshot : list (string * session_record)) : list string :=
  match snapshot with
  | [] => []
  | (session_id, (_, last_activity)) :: rest =>
      if Float64.ltb SESSION_TIMEOUT (Float64.sub current_time last_activity)
      then session_id :: collect_expired current_time rest
      else collect_expired current_time rest
  end.

(** Second loop: delete each collected identifier that is still there. *)
Fixpoint remove_expired (expired_sessions : list string)
    (d : Dict.dict session_record) : Dict.dict session_record :=
  match expired_sessions with
  | [] => d
  | session_id :: rest =>
      remove_expired rest
        (if Dict.contains session_id d then Dict.del session_id d
         else d)
  end.

Definition cleanup_expired_sessions : M (list string) :=
  current_time <- time_time ;;
  d <- get_sessions ;;
  let expired_sessions := collect_expired current_time (Dict.items d) in
  put_sessions (remove_expired expired_sessions d) ;;
  ret expired_sessions.

Definition end_session (session_id : string) : M bool :=
  d <- get_sessions ;;
  if Dict.contains session_id d
  then put_sessions (Dict.del session_id d) ;; ret true
  else ret false.

End Manager.

(** ** Python values and exceptions met by the PIN scanner *)

(** A Python [float]: a finite double (the rational it denotes), an
    infinity or a NaN. *)
Inductive pyfloat : Type :=
| FFinite (q : Q)
| FInf (negative : bool)
| FNaN.

(** The objects [json.loads] builds, which are also the objects the
    scanner can hand back. *)
Inductive pyobj : Type :=
| PyNone
| PyBool (b : bool)
| PyInt (z : Z)
| PyFloat (f : pyfloat)
| PyStr (s : string)
| PyList (l : list pyobj)
| PyDict (d : list (string * pyobj)).

(** Truth value of an object, as tested by [if pin:]. *)
Definition truthy (v : pyobj) : bool :=
  match v with
  | PyNone => false
  | PyBool b => b
  | PyInt z => negb (z =? 0)%Z
  | PyFloat (FFinite q) => negb (Qeq_bool q 0)
  | PyFloat _ => true
  | PyStr s => negb (String.eqb s EmptyString)
  | PyList l => match l with [] => false | _ :: _ => true end
  | PyDict d => match d with [] => false | _ :: _ => true end
  end.

Inductive exn : Type :=
| JSONDecodeError
| AttributeError.

(** An expression evaluates to a value or raises. *)
Inductive raising (A : Type) : Type :=
| Returns (a : A)
| Raises (e : exn).
Arguments Returns {A} a.
Arguments Raises {A} e.

(** How a block of statements inside the function ends: control falls
    through to what follows, the function returns, or an exception is on
    its way out. *)
Inductive control : Type :=
| Fallthrough
| Return (v : pyobj)
| Raise (e : exn).

(** [c1; c2] *)
Definition seq (c1 c2 : control) : control :=
  match c1 with
  | Fallthrough => c2
  | _ => c1
  end.

(** [try: body  except json.JSONDecodeError: handler] *)
Definition try_except_JSONDecodeError (body handler : control) : control :=
  match body with
  | Raise JSONDecodeError => handler
  | _ => body
  end.

(** [args.get(key)]: only a [dict] has a [get] method. *)
Definition method_get (args : pyobj) (key : string) : raising pyobj :=
  match args with
  | PyDict d =>
      Returns (match Dict.get key d with Some v => v | None => PyNone end)
  | _ => Raises AttributeError
  end.

(** [str.isdigit] on one character with code point below 256: the ten
    ASCII digits and the superscripts U+00B2, U+00B3 and U+00B9. *)
Definition char_isdigit (c : ascii) : bool :=
  let n := nat_of_ascii c in
  ((48 <=? n)%nat && (n <=? 57)%nat)
  || (n =? 178)%nat || (n =? 179)%nat || (n =? 185)%nat.

Fixpoint all_chars (p : ascii -> bool) (s : string) : bool :=
  match s with
  | EmptyString => true
  | String c rest => p c && all_chars p rest
  end.

(** [s.isdigit()]: every character is a digit and there is at least one. *)
Definition str_isdigit (s : string) : bool :=
  negb (String.eqb s EmptyString) && all_chars char_isdigit s.

(** ** Conversations *)

Module Conversation.

(** [tool_call["function"]], with its [name] and [arguments]. *)
Record function_call : Type := mkFunction {
  name : string;
  arguments : string
}.

Record tool_call : Type := mkToolCall {
  function : function_call
}.

(** A message; [tool_calls] is [None] when the key is not in the
    message. *)
Record message : Type := mkMessage {
  role : string;
  content : string;
  tool_calls : option (list tool_call)
}.

End Conversation.
Import Conversation.

Section Scanner.

(** [json.loads] belongs to Python's library, not to this repository:
    the scanner is parametric in it. *)
Variable json_loads : string -> raising pyobj.

(** The body of the [try] block for one [validate_pin] invocation. *)
Definition try_validate_pin (tc : tool_call) : control :=
  match json_loads (arguments (function tc)) with
  | Raises e => Raise e
  | Returns args =>
      match method_get args "pin" with
      | Raises e => Raise e
      | Returns pin => if truthy pin then Return pin else Fallthrough
      end
  end.

(** One iteration of [for tool_call in msg["tool_calls"]]; [continue]
    ends the iteration like falling off its end. *)
Definition tool_call_step (tc : tool_call) : control :=
  if String.eqb (name (function tc)) "validate_pin"
  then try_except_JSONDecodeError (try_validate_pin tc) Fallthrough
  else Fallthrough.

Fixpoint for_tool_calls (tcs : list tool_call) : control :=
  match tcs with
  | [] => Fallthrough
  | tc :: rest => seq (tool_call_step tc) (for_tool_calls rest)
  end.

(** The first [if] of the loop body. *)
Definition user_step (msg : message) : control :=
  if String.eqb (role msg) "user"
  then
    let content := content msg in
    if (String.length content =? 4)%nat && str_isdigit content
    then Return (PyStr content)
    else Fallthrough
  else Fallthrough.

(** The second [if] of the loop body. *)
Definition assistant_step (msg : message) : control :=
  match tool_calls msg with
  | Some tcs =>
      if String.eqb (role msg) "assistant"
      then for_tool_calls tcs
      else Fallthrough
  | None => Fallthrough
  end.

Definition message_step (msg : message) : control :=
  seq (user_step msg) (assistant_step msg).

Fixpoint for_messages (msgs : list message) : control :=
  match msgs with
  | [] => Fallthrough
  | msg :: rest => seq (message_step msg) (for_messages rest)
  end.

(** The whole function: [for msg in reversed(conversation): ...]
    followed by [return None]. *)
Definition get_cached_pin_from_conversation (conversation : list message)
  : raising pyobj :=
  match for_messages (rev conversation) with
  | Fallthrough => Returns PyNone
  | Return v => Returns v
  | Raise e => Raises e
  end.

End Scanner.

(** ** A decoder for JSON texts

    [Json.loads] follows Python's [json.loads] in its default
    configuration (whitespace, the literals including [NaN] and the
    infinities, numbers, strings in strict mode, arrays, objects whose
    repeated keys keep the last value).  It is used to run the scanner on
    concrete payloads; every theorem about the scanner holds for any
    decoder.  Where it departs from Python: a number with a fraction or an
    exponent is the rational it denotes, not the nearest double; a [\u]
    escape above U+00FF is rejected because [string] cannot hold it; and
    neither the depth of nesting nor the size of an integer is limited. *)

Module Json.

Definition code (c : ascii) : nat := nat_of_ascii c.

Definition is_ws (c : ascii) : bool :=
  let n := code c in (n =? 32) || (n =? 9) || (n =? 10) || (n =? 13).

Fixpoint skip_ws (s : list ascii) : list ascii :=
  match s with
  | [] => []
  | c :: r => if is_ws c then skip_ws r else s
  end.

Fixpoint strip_prefix (p s : list ascii) : option (list ascii) :=
  match p, s with
  | [], _ => Some s
  | a :: p', b :: s' => if Ascii.eqb a b then strip_prefix p' s' else None
  | _ :: _, [] => None
  end.

Definition literal (lit : string) (s : list ascii) : option (list ascii) :=
  strip_prefix (list_ascii_of_string lit) s.

Definition is_dec (c : ascii) : bool :=
  (48 <=? code c) && (code c <=? 57).

Definition hex_val (c : ascii) : option nat :=
  let n := code c in
  if (48 <=? n) && (n <=? 57) then Some (n - 48)
  else if (65 <=? n) && (n <=? 70) then Some (n - 55)
  else if (97 <=? n) && (n <=? 102) then Some (n - 87)
  else None.

(** The longest run of decimal digits: its value, its length, the rest. *)
Fixpoint digits (s : list ascii) (acc : Z) (count : nat)
  : Z * nat * list ascii :=
  match s with
  | [] => (acc, count, [])
  | c :: r =>
      if is_dec c
      then digits r (10 * acc + Z.of_nat (code c - 48))%Z (S count)
      else (acc, count, s)
  end.

Definition pow10 (e : Z) : Q :=
  if (0 <=? e)%Z then inject_Z (10 ^ e)
  else (1 # Z.to_pos (10 ^ (- e)))%Q.

(** A number: an optional minus sign, then either a single zero or a
    run of digits not starting with zero, then optionally a point
    followed by digits, then optionally an exponent mark, a sign and
    digits.  An optional part that is incomplete is not consumed. *)
Definition number (s : list ascii) : option (pyobj * list ascii) :=
  let '(neg, s1) :=
    match s with
    | c :: r => if code c =? 45 then (true, r) else (false, s)
    | [] => (false, s)
    end in
  match s1 with
  | [] => None
  | c :: r =>
      if is_dec c then
        let '(ip, s2) :=
          if code c =? 48 then (0%Z, r)
          else let '(v, _, r') := digits s1 0%Z 0 in (v, r') in
        let '(fr, s3) :=
          match s2 with
          | d :: r2 =>
              if code d =? 46 then
                let '(v, n, r3) := digits r2 0%Z 0 in
                if n =? 0 then (None, s2) else (Some (v, n), r3)
              else (None, s2)
          | [] => (None, s2)
          end in
        let '(ex, s4) :=
          match s3 with
          | e :: r3 =>
              if (code e =? 101) || (code e =? 69) then
                let '(eneg, r4) :=
                  match r3 with
                  | sg :: r4 =>
                      if code sg =? 45 then (true, r4)
                      else if code sg =? 43 then (false, r4)
                      else (false, r3)
                  | [] => (false, r3)
                  end in
                let '(v, n, r5) := digits r4 0%Z 0 in
                if n =? 0 then (None, s3)
                else (Some (if eneg then (- v)%Z else v), r5)
              else (None, s3)
          | [] => (None, s3)
          end in
        match fr, ex with
        | None, None => Some (PyInt (if neg then (- ip)%Z else ip), s4)
        | _, _ =>
            let '(fv, fn) :=
              match fr with Some p => p | None => (0%Z, 0) end in
            let e := match ex with Some e => e | None => 0%Z end in
            let m := (ip * 10 ^ Z.of_nat fn + fv)%Z in
            let q := (inject_Z (if neg then (- m)%Z else m)
                      * pow10 (e - Z.of_nat fn))%Q in
            Some (PyFloat (FFinite q), s4)
        end
      else None
  end.

Definition simple_escape (n : nat) : option ascii :=
  if n =? 34 then Some (ascii_of_nat 34)
  else if n =? 92 then Some (ascii_of_nat 92)
  else if n =? 47 then Some (ascii_of_nat 47)
  else if n =? 98 then Some (ascii_of_nat 8)
  else if n =? 102 then Some (ascii_of_nat 12)
  else if n =? 110 then Some (ascii_of_nat 10)
  else if n =? 114 then Some (ascii_of_nat 13)
  else if n =? 116 then Some (ascii_of_nat 9)
  else None.

(** A string, read from just after its opening quote; [acc] holds the
    characters read so far, last first. *)
Fixpoint string_body (s acc : list ascii) : option (string * list ascii) :=
  match s with
  | [] => None
  | c :: r =>
      let n := code c in
      if n =? 34 then Some (string_of_list_ascii (rev acc), r)
      else if n =? 92 then
        match r with
        | [] => None
        | e :: r' =>
            if code e =? 117 then
              match r' with
              | h1 :: h2 :: h3 :: h4 :: r'' =>
                  match hex_val h1, hex_val h2, hex_val h3, hex_val h4 with
                  | Some a, Some b, Some c', Some d =>
                      let v := ((a * 16 + b) * 16 + c') * 16 + d in
                      if v <? 256
                      then string_body r'' (ascii_of_nat v :: acc)
                      else None
                  | _, _, _, _ => None
                  end
              | _ => None
              end
            else
              match simple_escape (code e) with
              | Some ch => string_body r' (ch :: acc)
              | None => None
              end
        end
      else if n <? 32 then None
      else string_body r (c :: acc)
  end.

Section Containers.

(** The decoder of one value, used for the elements. *)
Variable value : list ascii -> option (pyobj * list ascii).

(** The elements of an array, from the first one to the closing
    bracket; [n] bounds the number of elements. *)
Fixpoint elements (n : nat) (s : list ascii) (acc : list pyobj)
  : option (list pyobj * list ascii) :=
  match n with
  | 0 => None
  | S n' =>
      match value s with
      | None => None
      | Some (v, r) =>
          match skip_ws r with
          | c :: r' =>
              if code c =? 44 then elements n' (skip_ws r') (v :: acc)
              else if code c =? 93 then Some (rev (v :: acc), r')
              else None
          | [] => None
          end
      end
  end.

(** The members of an object, from the first key to the closing
    brace. *)
Fixpoint members (n : nat) (s : list ascii) (acc : Dict.dict pyobj)
  : option (Dict.dict pyobj * list ascii) :=
  match n with
  | 0 => None
  | S n' =>
      match s with
      | q :: r =>
          if code q =? 34 then
            match string_body r [] with
            | None => None
            | Some (k, r1) =>
                match skip_ws r1 with
                | c :: r2 =>
                    if code c =? 58 then
                      match value (skip_ws r2) with
                      | None => None
                      | Some (v, r3) =>
                          let acc' := Dict.set k v acc in
                          match skip_ws r3 with
                          | d :: r4 =>
                              if code d =? 44
                              then members n' (skip_ws r4) acc'
                              else if code d =? 125 then Some (acc', r4)
                              else None
                          | [] => None
                          end
                      end
                    else None
                | [] => None
                end
            end
          else None
      | [] => None
      end
  end.

End Containers.

Definition first_of {A : Type} (x y : option A) : option A :=
  match x with Some _ => x | None => y end.

Definition constant (lit : string) (v : pyobj) (s : list ascii)
  : option (pyobj * list ascii) :=
  match literal lit s with
  | Some r => Some (v, r)
  | None => None
  end.

(** One value at the head of [s]; [fuel] bounds the nesting and [len]
    the number of entries of a container. *)
Fixpoint value (fuel len : nat) (s : list ascii)
  : option (pyobj * list ascii) :=
  match fuel with
  | 0 => None
  | S f =>
      match s with
      | [] => None
      | c :: r =>
          let n := code c in
          if n =? 34 then
            match string_body r [] with
            | Some (str, r') => Some (PyStr str, r')
            | None => None
            end
          else if n =? 123 then
            match skip_ws r with
            | c' :: r' =>
                if code c' =? 125 then Some (PyDict [], r')
                else
                  match members (value f len) len (skip_ws r) [] with
                  | Some (d, r'') => Some (PyDict d, r'')
                  | None => None
                  end
            | [] => None
            end
          else if n =? 91 then
            match skip_ws r with
            | c' :: r' =>
                if code c' =? 93 then Some (PyList [], r')
                else
                  match elements (value f len) len (skip_ws r) [] with
                  | Some (l, r'') => Some (PyList l, r'')
                  | None => None
                  end
            | [] => None
            end
          else
            first_of (constant "null" PyNone s)
           (first_of (constant "true" (PyBool true) s)
           (first_of (constant "false" (PyBool false) s)
           (first_of (number s)
           (first_of (constant "NaN" (PyFloat FNaN) s)
           (first_of (constant "Infinity" (PyFloat (FInf false)) s)
                     (constant "-Infinity" (PyFloat (FInf true)) s))))))
      end
  end.

(** [json.loads(s)] *)
Definition loads (s : string) : raising pyobj :=
  let l := list_ascii_of_string s in
  let n := S (List.length l) in
  match value n n (skip_ws l) with
  | Some (v, r) =>
      match skip_ws r with
      | [] => Returns v
      | _ :: _ => Raises JSONDecodeError
      end
  | None => Raises JSONDecodeError
  end.

(** JSON texts are written below with an apostrophe for each double
    quote. *)
Fixpoint text (s : string) : string :=
  match s with
  | EmptyString => EmptyString
  | String c r =>
      String (if code c =? 39 then ascii_of_nat 34 else c) (text r)
  end.

End Json.

(** ** The patterns as the specification words them *)

(** "Decimal digit": one of the ten characters [0] to [9]. *)
Definition is_decimal_digit (c : ascii) : bool :=
  (48 <=? nat_of_ascii c) && (nat_of_ascii c <=? 57).

(** "role is user and its content is exactly 4 characters, all decimal
    digits". *)
Definition spec_user_pattern (msg : message) : bool :=
  String.eqb (role msg) "user"
  && (String.length (content msg) =? 4)
  && all_chars is_decimal_digit (content msg).

(** ** Invocations and messages that yield no PIN *)

Section Unmatched.
Variable json_loads : string -> raising pyobj.

(** A tool invocation the scan passes over: it is not a [validate_pin]
    invocation, or its payload does not decode, or it decodes to a
    record in which [pin] is missing or has a false truth value. *)
Definition unmatched_call (tc : tool_call) : Prop :=
  name (function tc) <> "validate_pin"
  \/ json_loads (arguments (function tc)) = Raises JSONDecodeError
  \/ exists d,
       json_loads (arguments (function tc)) = Returns (PyDict d)
       /\ (Dict.get "pin" d = None
           \/ exists v, Dict.get "pin" d = Some v /\ truthy v = false).

(** A message the scan passes over: as a user message its content is
    not four digits, and as an assistant message each of its tool
    invocations is passed over. *)
Definition unmatched (msg : message) : Prop :=
  (role msg = "user" ->
   ~ (String.length (content msg) = 4 /\ str_isdigit (content msg) = true))
  /\ (role msg = "assistant" ->
      forall tcs, tool_calls msg = Some tcs -> Forall unmatched_call tcs).

End Unmatched.

(** ** Messages of the worked examples *)

Definition user_message (text : string) : message :=
  {| role := "user"; content := text; tool_calls := None |}.

(** An assistant message carrying one [validate_pin] invocation. *)
Definition validate_pin_message (payload : string) : message :=
  {| role := "assistant";
     content := EmptyString;
     tool_calls :=
       Some [ {| function := {| name := "validate_pin";
                                arguments := payload |} |} ] |}.

(** The four characters [1], [2], superscript two (U+00B2) and [4]. *)
Definition superscript_content : string :=
  String "1" (String "2" (String (ascii_of_nat 178) (String "4" EmptyString))).

(** ** What the scanner reads of a message *)

(** The messages the loop body can do something with: those of role
    "user", and those of role "assistant" that have the key
    [tool_calls]. *)
Definition relevant (msg : message) : bool :=
  String.eqb (role msg) "user"
  || (String.eqb (role msg) "assistant"
      && match tool_calls msg with Some _ => true | None => false end).

(** A message without the fields the loop body does not read for its
    role: the content unless the role is "user", the tool invocations
    unless the role is "assistant". *)
Definition strip_unread (msg : message) : message :=
  {| role := role msg;
     content :=
       if String.eqb (role msg) "user" then content msg else EmptyString;
     tool_calls :=
       if String.eqb (role msg) "assistant" then tool_calls msg else None |}.

(** ** Staleness of an entry of the store *)

(** The test of the first loop of [cleanup_expired_sessions] on one entry
    of [items()]. *)
Definition stale (now : Q) (entry : string * session_record) : bool :=
  Float64.ltb SESSION_TIMEOUT (Float64.sub now (snd (snd entry))).

(** ** Data of the worked examples *)

(** A clock read every ten minutes: 0, 600, 1200, ... *)
Definition ten_minute_clock (n : nat) : Q := inject_Z (600 * Z.of_nat n).

(** A clock read every hour. *)
Definition hourly_clock (n : nat) : Q := inject_Z (3600 * Z.of_nat n).

(** One session, last active at 0; the clock has been read [calls]
    times. *)
Definition one_session (calls : nat) : world :=
  {| authenticated_sessions := [("s", ("ACC1", 0%Q))]; time_calls := calls |}.

(** A clock that stands still. *)
Definition stopped_clock (n : nat) : Q := 1000%Q.

(** Three sessions, last active at 0, 1000 and 50. *)
Definition three_sessions : world :=
  {| authenticated_sessions :=
       [("s1", ("ACC1", 0%Q)); ("s2", ("ACC2", 1000%Q)); ("s3", ("ACC3", 50%Q))];
     time_calls := 5 |}.

(** The double nearest to a rational within the range, as a fraction in
    lowest terms. *)
Definition double (q : Q) : Q :=
  match Float64.round q with
  | Float64.Finite r => Qred r
  | Float64.Infinity _ => q
  end.

(** One session, last active at the double 0.1. *)
Definition session_at_a_tenth : world :=
  {| authenticated_sessions := [("s", ("ACC1", double (1 # 10)))];
     time_calls := 0 |}.

(** A clock that stands still at the double 900.1. *)
Definition clock_at_900_1 (n : nat) : Q := double (9001 # 10).

(** An assistant message carrying [validate_pin] invocations, one for
    each payload. *)
Definition validate_pin_calls (payloads : list string) : message :=
  {| role := "assistant";
     content := EmptyString;
     tool_calls :=
       Some (map (fun payload =>
                    {| function := {| name := "validate_pin";
                                      arguments := payload |} |})
               payloads) |}.

(** ** Proof steps *)

(** Unfolds a method down to the state it returns. *)
Ltac run_method :=
  unfold is_authenticated, get_authenticated_account, authenticate_session,
    update_session_activity, end_session, cleanup_expired_sessions,
    bind, ret, get_sessions, put_sessions, time_time, result, after;
  simpl.

(** Proves that the keys of a given store are distinct. *)
Ltac distinct_keys :=
  unfold Dict.wf; simpl;
  repeat (constructor; [simpl; intuition discriminate|]); constructor.

(** ** Facts about dictionaries *)

Section DictFacts.
Context {V : Type}.
Implicit Types (d : Dict.dict V) (k : string) (v : V).

Lemma dict_get_set_same k v d : Dict.get k (Dict.set k v d) = Some v.
Proof.
  induction d as [|[k' v'] d IH]; simpl.
  - now rewrite String.eqb_refl.
  - destruct (String.eqb_spec k' k) as [->|Hne]; simpl.
    + now rewrite String.eqb_refl.
    + destruct (String.eqb_spec k' k); [contradiction | exact IH].
Qed.

Lemma dict_get_set_other k k' v d :
  k' <> k -> Dict.get k' (Dict.set k v d) = Dict.get k' d.
Proof.
  intros Hne.
  induction d as [|[k0 v0] d IH]; simpl.
  - destruct (String.eqb_spec k k'); [congruence | reflexivity].
  - destruct (String.eqb_spec k0 k) as [->|Hk]; simpl.
    + destruct (String.eqb_spec k k'); [congruence | reflexivity].
    + destruct (String.eqb_spec k0 k'); [reflexivity | exact IH].
Qed.

Lemma dict_get_None k d : Dict.get k d = None <-> ~ In k (Dict.keys d).
Proof.
  induction d as [|[k' v'] d IH]; simpl.
  - tauto.
  - destruct (String.eqb_spec k' k) as [->|Hne].
    + split; [discriminate | tauto].
    + rewrite IH. tauto.
Qed.

Lemma dict_get_In k v d : Dict.get k d = Some v -> In (k, v) d.
Proof.
  induction d as [|[k' v'] d IH]; simpl; [discriminate|].
  destruct (String.eqb_spec k' k) as [->|Hne].
  - intros [= ->]. now left.
  - intros H. right. now apply IH.
Qed.

Lemma dict_In_get k v d : Dict.wf d -> In (k, v) d -> Dict.get k d = Some v.
Proof.
  unfold Dict.wf.
  induction d as [|[k' v'] d IH]; simpl; [tauto|].
  intros Hnd [[= -> ->]|Hin].
  - now rewrite String.eqb_refl.
  - inversion Hnd as [|? ? Hnotin Hnd']; subst.
    destruct (String.eqb_spec k' k) as [->|Hne].
    + exfalso. apply Hnotin. change k with (fst (k, v)).
      now apply in_map.
    + now apply IH.
Qed.

Lemma dict_keys_set k v d :
  Dict.keys (Dict.set k v d)
  = if Dict.contains k d then Dict.keys d else Dict.keys d ++ [k].
Proof.
  unfold Dict.contains.
  induction d as [|[k' v'] d IH]; simpl; [reflexivity|].
  destruct (String.eqb_spec k' k) as [->|Hne]; simpl; [reflexivity|].
  rewrite IH. now destruct (Dict.get k d).
Qed.

Lemma dict_wf_set k v d : Dict.wf d -> Dict.wf (Dict.set k v d).
Proof.
  unfold Dict.wf. intros Hnd. rewrite dict_keys_set.
  unfold Dict.contains.
  destruct (Dict.get k d) eqn:Hget; [exact Hnd|].
  apply dict_get_None in Hget.
  apply NoDup_app; [exact Hnd | repeat constructor; simpl; tauto |].
  intros x Hx [<-|[]]. contradiction.
Qed.

Lemma dict_del_filter k d :
  Dict.wf d ->
  Dict.del k d = filter (fun e => negb (String.eqb (fst e) k)) d.
Proof.
  unfold Dict.wf.
  induction d as [|[k' v'] d IH]; simpl; [reflexivity|].
  intros Hnd. inversion Hnd as [|? ? Hnotin Hnd']; subst.
  destruct (String.eqb_spec k' k) as [->|Hne]; simpl.
  - symmetry. apply forallb_filter_id. apply forallb_forall.
    intros [k0 v0] Hin. simpl.
    destruct (String.eqb_spec k0 k) as [->|]; [|reflexivity].
    exfalso. apply Hnotin. change k with (fst (k, v0)). now apply in_map.
  - f_equal. now apply IH.
Qed.

Lemma dict_wf_filter (p : string * V -> bool) d :
  Dict.wf d -> Dict.wf (filter p d).
Proof.
  unfold Dict.wf, Dict.keys.
  induction d as [|e d IH]; simpl; [tauto|].
  intros Hnd. inversion Hnd as [|? ? Hnotin Hnd']; subst.
  destruct (p e); simpl; [|now apply IH].
  constructor; [|now apply IH].
  intros Hin. apply Hnotin.
  apply in_map_iff in Hin as [e' [He' Hin]].
  apply filter_In in Hin as [Hin _].
  rewrite <- He'. now apply in_map.
Qed.

Lemma dict_get_filter (p : string * V -> bool) k d :
  Dict.wf d ->
  Dict.get k (filter p d)
  = match Dict.get k d with
    | Some v => if p (k, v) then Some v else None
    | None => None
    end.
Proof.
  unfold Dict.wf.
  induction d as [|[k' v'] d IH]; simpl; [reflexivity|].
  intros Hnd. inversion Hnd as [|? ? Hnotin Hnd']; subst.
  destruct (String.eqb_spec k' k) as [->|Hne].
  - destruct (p (k, v')) eqn:Hp; simpl.
    + now rewrite String.eqb_refl.
    + rewrite (IH Hnd').
      replace (Dict.get k d) with (@None V); [reflexivity|].
      symmetry. now apply dict_get_None.
  - destruct (p (k', v')); simpl; [|now apply IH].
    destruct (String.eqb_spec k' k); [contradiction | now apply IH].
Qed.

Lemma dict_wf_del k d : Dict.wf d -> Dict.wf (Dict.del k d).
Proof.
  intros Hwf. rewrite dict_del_filter by exact Hwf.
  now apply dict_wf_filter.
Qed.

Lemma dict_get_del_same k d : Dict.wf d -> Dict.get k (Dict.del k d) = None.
Proof.
  intros Hwf. rewrite dict_del_filter, dict_get_filter by exact Hwf.
  destruct (Dict.get k d); [|reflexivity].
  simpl. now rewrite String.eqb_refl.
Qed.

Lemma dict_get_del_other k k' d :
  k' <> k -> Dict.get k' (Dict.del k d) = Dict.get k' d.
Proof.
  intros Hne.
  induction d as [|[k0 v0] d IH]; simpl; [reflexivity|].
  destruct (String.eqb_spec k0 k) as [->|Hk]; simpl.
  - destruct (String.eqb_spec k k'); [congruence | reflexivity].
  - destruct (String.eqb_spec k0 k'); [reflexivity | exact IH].
Qed.

Lemma dict_del_length k d :
  Dict.contains k d = true -> S (List.length (Dict.del k d)) = List.length d.
Proof.
  unfold Dict.contains.
  induction d as [|[k0 v0] d IH]; simpl; [discriminate|].
  destruct (String.eqb_spec k0 k); simpl; [reflexivity|].
  intros H. now rewrite IH.
Qed.

(** In a well-formed dictionary an entry is known by its key. *)
Lemma dict_entry_unique d (e e' : string * V) :
  Dict.wf d -> In e d -> In e' d -> fst e = fst e' -> e = e'.
Proof.
  intros Hwf He He' Hk. destruct e as [k v], e' as [k' v']. simpl in Hk.
  subst k'. apply (dict_In_get _ _ _ Hwf) in He, He'. congruence.
Qed.

End DictFacts.

(** ** Facts about the comparison of clock readings *)

Lemma Qlt_bool_iff (x y : Q) : Qlt_bool x y = true <-> (x < y)%Q.
Proof. unfold Qlt_bool, Qlt. apply Z.ltb_lt. Qed.

Lemma Qlt_bool_false_iff (x y : Q) : Qlt_bool x y = false <-> (y <= x)%Q.
Proof. unfold Qlt_bool, Qle. apply Z.ltb_ge. Qed.

Lemma Qle_bool_false_iff (x y : Q) : Qle_bool x y = false <-> (y < x)%Q.
Proof.
  rewrite <- Bool.not_true_iff_false, Qle_bool_iff. split.
  - apply Qnot_le_lt.
  - apply Qlt_not_le.
Qed.

Lemma SESSION_TIMEOUT_seconds : (SESSION_TIMEOUT == 900)%Q.
Proof. reflexivity. Qed.

(** ** Facts about double-precision subtraction *)

Section Rounding.
Local Open Scope Q_scope.

Lemma pow2_pos (e : Z) : 0 < Float64.pow2 e.
Proof. apply Qpower_0_lt. reflexivity. Qed.

Lemma pow2_le (a b : Z) : (a <= b)%Z -> Float64.pow2 a <= Float64.pow2 b.
Proof. intros H. apply Qpower_le_compat_l; [exact H | discriminate]. Qed.

Lemma pow2_lt (a b : Z) : (a < b)%Z -> Float64.pow2 a < Float64.pow2 b.
Proof. intros H. apply Qpower_lt_compat_l; [exact H | reflexivity]. Qed.

Lemma pow2_lt_inv (a b : Z) : Float64.pow2 a < Float64.pow2 b -> (a < b)%Z.
Proof. intros H. apply (Qpower_lt_compat_l_inv 2); [exact H | reflexivity]. Qed.

Lemma pow2_add (a b : Z) : Float64.pow2 (a + b) == Float64.pow2 a * Float64.pow2 b.
Proof. apply Qpower_plus. discriminate. Qed.

Lemma pow2_Z (n : Z) : (0 <= n)%Z -> Float64.pow2 n == inject_Z (2 ^ n).
Proof.
  intros H. unfold Float64.pow2. change (2 : Q) with (inject_Z 2).
  symmetry. now apply Zpower_Qpower.
Qed.

Lemma pow2_split (a b : Z) :
  (0 <= a)%Z -> (0 <= b)%Z ->
  Float64.pow2 (a - b) == inject_Z (2 ^ a) / inject_Z (2 ^ b).
Proof.
  intros Ha Hb. rewrite <- !pow2_Z by assumption.
  unfold Float64.pow2. apply Qpower_minus. discriminate.
Qed.

Lemma ilog2_spec (x : Q) :
  0 < x -> Float64.pow2 (Float64.ilog2 x) <= x /\ x < Float64.pow2 (Float64.ilog2 x + 1).
Proof.
  intros Hx. destruct x as [a b].
  assert (Ha : (0 < a)%Z).
  { unfold Qlt in Hx. simpl in Hx. lia. }
  unfold Float64.ilog2. simpl Qnum. simpl Qden.
  set (la := Z.log2 a). set (lb := Z.log2 (Z.pos b)).
  destruct (Z.log2_spec a Ha) as [Ha1 Ha2].
  destruct (Z.log2_spec (Z.pos b) eq_refl) as [Hb1 Hb2].
  fold la in Ha1, Ha2. fold lb in Hb1, Hb2.
  assert (Hla : (0 <= la)%Z) by apply Z.log2_nonneg.
  assert (Hlb : (0 <= lb)%Z) by apply Z.log2_nonneg.
  assert (Hpa : (0 < 2 ^ la)%Z) by (apply Z.pow_pos_nonneg; lia).
  assert (Hpb : (0 < 2 ^ lb)%Z) by (apply Z.pow_pos_nonneg; lia).
  assert (Hupper : a # b < Float64.pow2 (la - lb + 1)).
  { replace (la - lb + 1)%Z with (Z.succ la - lb)%Z by lia.
    rewrite pow2_split by lia.
    apply Qlt_shift_div_l.
    - change 0 with (inject_Z 0). rewrite <- Zlt_Qlt. exact Hpb.
    - unfold Qlt. simpl. nia. }
  assert (Hlower : Float64.pow2 (la - lb - 1) < a # b).
  { replace (la - lb - 1)%Z with (la - Z.succ lb)%Z by lia.
    rewrite pow2_split by lia.
    apply Qlt_shift_div_r.
    - change 0 with (inject_Z 0). rewrite <- Zlt_Qlt.
      apply Z.pow_pos_nonneg; lia.
    - unfold Qlt. simpl. nia. }
  destruct (Qle_bool (Float64.pow2 (la - lb)) (a # b)) eqn:Htest.
  - apply Qle_bool_iff in Htest. split; assumption.
  - apply Qle_bool_false_iff in Htest. split.
    + now apply Qlt_le_weak.
    + now replace (la - lb - 1 + 1)%Z with (la - lb)%Z by lia.
Qed.

Lemma round_half_even_range (m : Q) :
  (Qfloor m <= Float64.round_half_even m <= Qfloor m + 1)%Z.
Proof.
  unfold Float64.round_half_even.
  destruct (m - inject_Z (Qfloor m) ?= 1 # 2); try lia.
  destruct (Z.even (Qfloor m)); lia.
Qed.

Lemma floor_bounds (m : Q) :
  inject_Z (Qfloor m) <= m /\ m < inject_Z (Qfloor m) + 1.
Proof.
  split; [apply Qfloor_le|].
  pose proof (Qlt_floor m) as H. now rewrite inject_Z_plus in H.
Qed.

Lemma round_half_even_le (m : Q) (k : Z) :
  m <= inject_Z k -> (Float64.round_half_even m <= k)%Z.
Proof.
  intros Hm. destruct (floor_bounds m) as [Hlo Hhi].
  assert (Hf : (Qfloor m <= k)%Z).
  { rewrite Zle_Qle. lra. }
  destruct (Z.eq_dec (Qfloor m) k) as [Heq|Hne].
  - unfold Float64.round_half_even. rewrite Heq in *.
    destruct (Qcompare_spec (m - inject_Z k) (1 # 2)) as [H|H|H];
      [lra | lia | lra].
  - pose proof (round_half_even_range m). lia.
Qed.

Lemma round_half_even_ge (m : Q) (k : Z) :
  inject_Z k <= m -> (k <= Float64.round_half_even m)%Z.
Proof.
  intros Hm. apply Qfloor_resp_le in Hm. rewrite Qfloor_Z in Hm.
  pose proof (round_half_even_range m). lia.
Qed.

Lemma round_half_even_le_even (m : Q) (k : Z) :
  Z.even k = true ->
  ((Float64.round_half_even m <= k)%Z <-> m <= inject_Z k + (1 # 2)).
Proof.
  intros Heven. destruct (floor_bounds m) as [Hlo Hhi].
  pose proof (round_half_even_range m) as Hrange.
  split.
  - intros Hle.
    destruct (Z.eq_dec (Qfloor m) k) as [Heq|Hne].
    + unfold Float64.round_half_even in Hle. rewrite Heq in *.
      destruct (Qcompare_spec (m - inject_Z k) (1 # 2)) as [H|H|H].
      * lra.
      * lra.
      * lia.
    + assert (Hlt : (Qfloor m + 1 <= k)%Z) by lia.
      rewrite Zle_Qle, inject_Z_plus in Hlt. unfold inject_Z at 2 in Hlt. lra.
  - intros Hle.
    assert (Hf : (Qfloor m < k + 1)%Z).
    { rewrite Zlt_Qlt, inject_Z_plus. unfold inject_Z at 3. lra. }
    destruct (Z.eq_dec (Qfloor m) k) as [Heq|Hne]; [|lia].
    unfold Float64.round_half_even. rewrite Heq in *.
    destruct (Qcompare_spec (m - inject_Z k) (1 # 2)) as [H|H|H].
    + rewrite Heven. lia.
    + lia.
    + lra.
Qed.

Lemma pow2_9 : Float64.pow2 9 == 512.
Proof. reflexivity. Qed.

Lemma pow2_10 : Float64.pow2 10 == 1024.
Proof. reflexivity. Qed.

Lemma leb_round_900 (x t : Q) :
  t == 900 ->
  (Float64.leb (Float64.round x) t = true <-> x <= 900 + (1 # 17592186044416)).
Proof.
  intros Ht. unfold Float64.round.
  destruct (Qeq_bool x 0) eqn:Hz.
  { apply Qeq_bool_iff in Hz. unfold Float64.leb. rewrite Qle_bool_iff. split; intros; lra. }
  apply Qeq_bool_neq in Hz.
  set (e := Float64.ilog2 (Qabs x)). set (qe := Z.max (e - 52) (-1074)).
  set (m := x / Float64.pow2 qe). set (n := Float64.round_half_even m).
  set (r := inject_Z n * Float64.pow2 qe).
  pose proof (pow2_pos qe) as Hq.
  assert (Hbig : 1024 < Float64.pow2 1024).
  { rewrite <- pow2_10. now apply pow2_lt. }
  destruct (Qlt_le_dec x 0) as [Hneg|Hnonneg].
  - assert (Hm : m <= inject_Z 0).
    { unfold m. apply Qle_shift_div_r; [exact Hq|].
      change (inject_Z 0) with 0. lra. }
    apply round_half_even_le in Hm. fold n in Hm.
    rewrite Zle_Qle in Hm.
    assert (Hr : r <= 0).
    { unfold r. change (inject_Z 0) with 0 in Hm. nra. }
    assert (Hs : Qlt_bool x 0 = true) by now apply Qlt_bool_iff.
    destruct (Qle_bool (Float64.pow2 1024) (Qabs r)); unfold Float64.leb.
    + rewrite Hs. split; [intros; lra | reflexivity].
    + rewrite Qle_bool_iff. split; intros; lra.
  - assert (Hpos : 0 < x).
    { apply Qle_lteq in Hnonneg as [H|H]; [exact H|]. exfalso. apply Hz.
      now symmetry. }
    assert (Habs : Qabs x == x) by (apply Qabs_pos; lra).
    destruct (ilog2_spec (Qabs x)) as [He1 He2]; [lra|].
    fold e in He1, He2. rewrite Habs in He1, He2.
    assert (Hs : Qlt_bool x 0 = false) by (apply Qlt_bool_false_iff; lra).
    assert (Hm0 : inject_Z 0 <= m).
    { unfold m. apply Qle_shift_div_l; [exact Hq|].
      change (inject_Z 0) with 0. lra. }
    apply round_half_even_ge in Hm0. fold n in Hm0. rewrite Zle_Qle in Hm0.
    assert (Hr0 : 0 <= r).
    { unfold r. change (inject_Z 0) with 0 in Hm0. nra. }
    assert (Hrabs : Qabs r == r) by now apply Qabs_pos.
    destruct (Qlt_le_dec x 512) as [Hsmall|Hmid].
    + assert (He : (e < 9)%Z).
      { apply pow2_lt_inv. rewrite pow2_9. lra. }
      assert (Hqe : (qe < 9)%Z) by (unfold qe; lia).
      assert (Hk : inject_Z (2 ^ (9 - qe)) * Float64.pow2 qe == 512).
      { rewrite <- pow2_Z by lia. rewrite <- pow2_add.
        replace (9 - qe + qe)%Z with 9%Z by lia. apply pow2_9. }
      assert (Hm : m <= inject_Z (2 ^ (9 - qe))).
      { unfold m. apply Qle_shift_div_r; [exact Hq|]. rewrite Hk. lra. }
      apply round_half_even_le in Hm. fold n in Hm. rewrite Zle_Qle in Hm.
      assert (Hr : r <= 512).
      { rewrite <- Hk. unfold r. apply Qmult_le_compat_r; [exact Hm | lra]. }
      destruct (Qle_bool (Float64.pow2 1024) (Qabs r)) eqn:Hover; unfold Float64.leb.
      * apply Qle_bool_iff in Hover. rewrite Hrabs in Hover. lra.
      * rewrite Qle_bool_iff. split; intros; lra.
    + destruct (Qlt_le_dec x 1024) as [Hlt|Hlarge].
      * assert (He : e = 9%Z).
        { assert (e < 10)%Z by (apply pow2_lt_inv; rewrite pow2_10; lra).
          assert (9 < e + 1)%Z by (apply pow2_lt_inv; rewrite pow2_9; lra).
          lia. }
        assert (Hqe : qe = (-43)%Z) by (unfold qe; rewrite He; reflexivity).
        assert (Hu : Float64.pow2 qe == 1 # 8796093022208) by (rewrite Hqe; reflexivity).
        assert (Hmx : m == x * 8796093022208).
        { unfold m. rewrite Hu. field. }
        assert (Hrn : r == inject_Z n * (1 # 8796093022208)).
        { unfold r. now rewrite Hu. }
        assert (Hm : m <= inject_Z 9007199254740992).
        { rewrite Hmx. unfold inject_Z. lra. }
        apply round_half_even_le in Hm. fold n in Hm. rewrite Zle_Qle in Hm.
        unfold inject_Z at 2 in Hm.
        destruct (Qle_bool (Float64.pow2 1024) (Qabs r)) eqn:Hover; unfold Float64.leb.
        { apply Qle_bool_iff in Hover. rewrite Hrabs in Hover. lra. }
        rewrite Qle_bool_iff.
        pose proof (round_half_even_le_even m 7916483719987200 eq_refl) as Heven.
        fold n in Heven. rewrite Zle_Qle in Heven.
        unfold inject_Z at 2 3 in Heven.
        split.
        -- intros Hle. assert (inject_Z n <= 7916483719987200) by lra.
           apply Heven in H. lra.
        -- intros Hle. assert (m <= 7916483719987200 + (1 # 2)) by lra.
           apply Heven in H. lra.
      * assert (He : (10 <= e)%Z).
        { assert (10 < e + 1)%Z by (apply pow2_lt_inv; rewrite pow2_10; lra).
          lia. }
        assert (Hqe : qe = (e - 52)%Z) by (unfold qe; lia).
        assert (Hk : inject_Z (2 ^ 52) * Float64.pow2 qe == Float64.pow2 e).
        { rewrite <- pow2_Z by lia. rewrite <- pow2_add, Hqe.
          now replace (52 + (e - 52))%Z with e by lia. }
        assert (Hm : inject_Z (2 ^ 52) <= m).
        { unfold m. apply Qle_shift_div_l; [exact Hq|]. rewrite Hk. exact He1. }
        apply round_half_even_ge in Hm. fold n in Hm. rewrite Zle_Qle in Hm.
        assert (Hr : 1024 <= r).
        { rewrite <- pow2_10.
          apply Qle_trans with (Float64.pow2 e); [now apply pow2_le|].
          rewrite <- Hk. unfold r. apply Qmult_le_compat_r; [exact Hm | lra]. }
        destruct (Qle_bool (Float64.pow2 1024) (Qabs r)); unfold Float64.leb.
        -- rewrite Hs. split; [discriminate | intros; lra].
        -- rewrite Qle_bool_iff. split; intros; lra.
Qed.

Lemma ltb_negb_leb (v : Float64.value) (t : Q) :
  Float64.ltb t v = negb (Float64.leb v t).
Proof.
  destruct v as [r|neg]; unfold Float64.ltb, Float64.leb; [|reflexivity].
  destruct (Qle_bool r t) eqn:H; simpl.
  - apply Qlt_bool_false_iff. now apply Qle_bool_iff.
  - apply Qlt_bool_iff. now apply Qle_bool_false_iff.
Qed.
End Rounding.

(** ** Freshness and staleness of a record *)

(** The test of [is_authenticated] in exact terms: the difference of the
    readings may exceed 900 by half a spacing and still round to 900. *)
Lemma fresh_threshold (now last t : Q) :
  (t == 900)%Q ->
  Float64.leb (Float64.sub now last) t = true
  <-> (now - last <= 900 + half_ulp_900)%Q.
Proof. intros Ht. unfold Float64.sub. now apply leb_round_900. Qed.

Lemma stale_threshold (now last t : Q) :
  (t == 900)%Q ->
  Float64.ltb t (Float64.sub now last) = true
  <-> (900 + half_ulp_900 < now - last)%Q.
Proof.
  intros Ht. rewrite ltb_negb_leb, Bool.negb_true_iff.
  rewrite <- Bool.not_true_iff_false, (fresh_threshold now last t Ht).
  split; [apply Qnot_le_lt | apply Qlt_not_le].
Qed.

(** Fresh and stale are complementary, whatever the readings. *)
Lemma fresh_or_stale (now last : Q) :
  Float64.leb (Float64.sub now last) SESSION_TIMEOUT
  = negb (Float64.ltb SESSION_TIMEOUT (Float64.sub now last)).
Proof. now rewrite ltb_negb_leb, Bool.negb_involutive. Qed.

(** The constant may be written either way. *)
Lemma leb_timeout (v : Float64.value) :
  Float64.leb v SESSION_TIMEOUT = Float64.leb v 900%Q.
Proof. reflexivity. Qed.

Lemma ltb_timeout (v : Float64.value) :
  Float64.ltb SESSION_TIMEOUT v = Float64.ltb 900%Q v.
Proof. reflexivity. Qed.

(** ** The session store *)

(** Every method keeps the dictionary well formed, so the invariant
    holds in every state reached from [init]. *)
Lemma wf_init (calls : nat) : Dict.wf (authenticated_sessions (init calls)).
Proof. constructor. Qed.

Lemma remove_expired_filter (ids : list string) :
  forall d : Dict.dict session_record,
    Dict.wf d ->
    remove_expired ids d
    = filter (fun e => negb (existsb (String.eqb (fst e)) ids)) d.
Proof.
  induction ids as [|k ids IH]; intros d Hwf; simpl.
  - symmetry. apply forallb_filter_id. now apply forallb_forall.
  - assert (Hstep : (if Dict.contains k d then Dict.del k d else d)
                    = filter (fun e => negb (String.eqb (fst e) k)) d).
    { unfold Dict.contains. destruct (Dict.get k d) eqn:Hget.
      - now apply dict_del_filter.
      - rewrite <- dict_del_filter by exact Hwf.
        apply dict_get_None in Hget. clear Hwf.
        induction d as [|[k' v'] d IHd]; simpl; [reflexivity|].
        simpl in Hget.
        destruct (String.eqb_spec k' k); [tauto|].
        f_equal. apply IHd. tauto. }
    rewrite Hstep, IH by now apply dict_wf_filter.
    clear. induction d as [|e d IHd]; simpl; [reflexivity|].
    destruct (String.eqb (fst e) k); simpl; [exact IHd|].
    destruct (existsb _ ids); simpl; [exact IHd | now rewrite IHd].
Qed.

Lemma wf_preserved (clock : nat -> Q) (w : world) (s a : string) :
  Dict.wf (authenticated_sessions w) ->
  Dict.wf (authenticated_sessions (after (authenticate_session clock s a w)))
  /\ Dict.wf (authenticated_sessions (after (update_session_activity clock s w)))
  /\ Dict.wf (authenticated_sessions (after (end_session s w)))
  /\ Dict.wf (authenticated_sessions (after (cleanup_expired_sessions clock w)))
  /\ Dict.wf (authenticated_sessions (after (is_authenticated clock s w)))
  /\ Dict.wf (authenticated_sessions (after (get_authenticated_account s w))).
Proof.
  intros Hwf. repeat split; run_method.
  - now apply dict_wf_set.
  - destruct (Dict.get s _) as [[a' l]|]; simpl; [now apply dict_wf_set | exact Hwf].
  - destruct (Dict.contains s _); simpl; [now apply dict_wf_del | exact Hwf].
  - rewrite remove_expired_filter by exact Hwf. now apply dict_wf_filter.
  - destruct (Dict.get s _) as [[a' l]|]; simpl; exact Hwf.
  - destruct (Dict.get s _) as [[a' l]|]; simpl; exact Hwf.
Qed.

(** C1. [is_authenticated(s)] is true exactly when the store holds a
    record for [s] and the reading of the clock minus the record's
    [last_activity], the difference Python computes, is at most 900, the
    bound included.  In exact terms: when the reading is later than
    [last_activity] by no more than 900 seconds and half a spacing of
    doubles, so always when it is later by no more than 900 seconds.  The
    call leaves the store as it found it, stale records too. *)
Theorem is_authenticated_spec (clock : nat -> Q) (session_id : string)
    (w : world) :
  let r := is_authenticated clock session_id w in
  let now := clock (time_calls w) in
  (result r = true <->
   exists account_number last_activity,
     Dict.get session_id (authenticated_sessions w)
     = Some (account_number, last_activity)
     /\ Float64.leb (Float64.sub now last_activity) 900 = true)
  /\ (result r = true <->
      exists account_number last_activity,
        Dict.get session_id (authenticated_sessions w)
        = Some (account_number, last_activity)
        /\ (now - last_activity <= 900 + half_ulp_900)%Q)
  /\ (forall account_number last_activity,
        Dict.get session_id (authenticated_sessions w)
        = Some (account_number, last_activity) ->
        (now - last_activity <= 900)%Q ->
        result r = true)
  /\ authenticated_sessions (after r) = authenticated_sessions w.
Proof.
  run_method.
  destruct (Dict.get session_id (authenticated_sessions w))
    as [[account last]|] eqn:Hget; simpl.
  - rewrite leb_timeout. repeat apply conj.
    + intros H. now exists account, last.
    + intros [a [l [[= <- <-] H]]]. exact H.
    + intros H. exists account, last. split; [reflexivity|].
      now apply (fresh_threshold _ _ 900%Q (Qeq_refl _)).
    + intros [a [l [[= <- <-] H]]].
      now apply (fresh_threshold _ _ 900%Q (Qeq_refl _)).
    + intros a l [= <- <-] H.
      apply (fresh_threshold _ _ 900%Q (Qeq_refl _)).
      unfold half_ulp_900. lra.
    + reflexivity.
  - repeat apply conj; try reflexivity; try discriminate.
    + intros [a [l [H _]]]. discriminate.
    + intros [a [l [H _]]]. discriminate.
Qed.

Lemma is_authenticated_spec_witness :
  result (is_authenticated clock_at_900_1 "s" session_at_a_tenth) = true.
Proof.
  pose proof (is_authenticated_spec clock_at_900_1 "s" session_at_a_tenth)
    as T.
  cbv zeta in T. destruct T as (_ & Hexact & _ & _).
  apply Hexact. exists "ACC1", (double (1 # 10)). split; [reflexivity|].
  vm_compute. discriminate.
Defined.

(** The bound of 900 belongs to the live side: a record that is exactly
    900 seconds old is authenticated and survives the clean-up; half a
    second more and it is neither. *)
Example boundary_is_inclusive :
  let at_900 := {| authenticated_sessions := [("s", ("ACC1", 100%Q))];
                   time_calls := 0 |} in
  is_authenticated stopped_clock "s" at_900
  = (true, {| authenticated_sessions := [("s", ("ACC1", 100%Q))];
              time_calls := 1 |})
  /\ result (cleanup_expired_sessions stopped_clock at_900) = []
  /\ let beyond := {| authenticated_sessions := [("s", ("ACC1", (199 # 2)%Q))];
                      time_calls := 0 |} in
     result (is_authenticated stopped_clock "s" beyond) = false
     /\ result (cleanup_expired_sessions stopped_clock beyond) = ["s"].
Proof. vm_compute. repeat split. Qed.

(** The difference is the rounded one: from the double 0.1 to the double
    900.1 there are more than 900 seconds, by less than half a spacing of
    doubles, and the difference Python computes is 900.  The session is
    authenticated and the clean-up leaves it. *)
Example rounding_at_the_boundary :
  (900 < clock_at_900_1 0 - double (1 # 10))%Q
  /\ Float64.sub (clock_at_900_1 0) (double (1 # 10))
     = Float64.Finite (7916483719987200 # 8796093022208)
  /\ result (is_authenticated clock_at_900_1 "s" session_at_a_tenth) = true
  /\ result (cleanup_expired_sessions clock_at_900_1 session_at_a_tenth) = [].
Proof. vm_compute. repeat split. Qed.

(** C7. [authenticate(s, a)] binds [s] to the account [a] and to the
    reading of the clock, whether or not [s] had a record (an existing key
    keeps its place, a new one goes last), and touches no other session.
    Right afterwards, that is when the next reading of the clock is no
    more than 900 seconds later, [get_authenticated_account(s)] is [a] and
    [is_authenticated(s)] is true.  The method has no failing path: its
    embedding has none to take. *)
Theorem authenticate_session_spec (clock : nat -> Q)
    (session_id account_number : string) (w : world) :
  let r := authenticate_session clock session_id account_number w in
  let d := authenticated_sessions w in
  let d1 := authenticated_sessions (after r) in
  result r = tt
  /\ Dict.get session_id d1 = Some (account_number, clock (time_calls w))
  /\ (forall other, other <> session_id -> Dict.get other d1 = Dict.get other d)
  /\ Dict.keys d1
     = (if Dict.contains session_id d then Dict.keys d
        else Dict.keys d ++ [session_id])
  /\ time_calls (after r) = S (time_calls w)
  /\ result (get_authenticated_account session_id (after r))
     = Some account_number
  /\ ((clock (S (time_calls w)) - clock (time_calls w) <= 900)%Q ->
      result (is_authenticated clock session_id (after r)) = true).
Proof.
  run_method. repeat apply conj.
  - reflexivity.
  - apply dict_get_set_same.
  - intros other Hne. now apply dict_get_set_other.
  - apply dict_keys_set.
  - reflexivity.
  - now rewrite dict_get_set_same.
  - intros immediately. rewrite dict_get_set_same. simpl.
    apply (fresh_threshold _ _ _ SESSION_TIMEOUT_seconds).
    unfold half_ulp_900. lra.
Qed.

Lemma authenticate_session_spec_witness :
  let w1 := after (authenticate_session ten_minute_clock "s" "ACC1" (init 0)) in
  result (get_authenticated_account "s" w1) = Some "ACC1"
  /\ result (is_authenticated ten_minute_clock "s" w1) = true.
Proof.
  pose proof (authenticate_session_spec ten_minute_clock "s" "ACC1" (init 0))
    as T.
  cbv zeta in T. destruct T as (_ & _ & _ & _ & _ & Hacct & Hauth).
  split; [exact Hacct|]. apply Hauth. vm_compute. discriminate.
Defined.

(** C3. [get_authenticated_account(s)] is the stored account whenever
    [s] has a record, whatever the age of the record, and absent when it
    has none; it changes nothing.  When more than 900 seconds have passed
    from the record's [last_activity], set by the last [authenticate] or
    [update_activity] on [s], to the reading of the clock, by the
    difference Python computes, [is_authenticated(s)] is false and
    [get_authenticated_account(s)] still is the account.  In exact terms
    this is so from 900 seconds and half a spacing of doubles on. *)
Theorem get_authenticated_account_spec (clock : nat -> Q)
    (session_id : string) (w : world) :
  let d := authenticated_sessions w in
  (forall account last,
      Dict.get session_id d = Some (account, last) ->
      result (get_authenticated_account session_id w) = Some account)
  /\ (Dict.get session_id d = None ->
      result (get_authenticated_account session_id w) = None)
  /\ after (get_authenticated_account session_id w) = w
  /\ (forall account last,
        Dict.get session_id d = Some (account, last) ->
        Float64.ltb 900 (Float64.sub (clock (time_calls w)) last) = true ->
        let r := is_authenticated clock session_id w in
        result r = false
        /\ result (get_authenticated_account session_id (after r))
           = Some account)
  /\ (forall account last,
        Dict.get session_id d = Some (account, last) ->
        (900 + half_ulp_900 < clock (time_calls w) - last)%Q ->
        let r := is_authenticated clock session_id w in
        result r = false
        /\ result (get_authenticated_account session_id (after r))
           = Some account)
  /\ (forall account,
        let w1 := after (authenticate_session clock session_id account w) in
        Float64.ltb 900
          (Float64.sub (clock (time_calls w1)) (clock (time_calls w))) = true ->
        let r := is_authenticated clock session_id w1 in
        result r = false
        /\ result (get_authenticated_account session_id (after r))
           = Some account)
  /\ (forall account last,
        Dict.get session_id d = Some (account, last) ->
        let w1 := after (update_session_activity clock session_id w) in
        Float64.ltb 900
          (Float64.sub (clock (time_calls w1)) (clock (time_calls w))) = true ->
        let r := is_authenticated clock session_id w1 in
        result r = false
        /\ result (get_authenticated_account session_id (after r))
           = Some account).
Proof.
  assert (Hstale : forall now last : Q,
             Float64.ltb 900 (Float64.sub now last) = true ->
             Float64.leb (Float64.sub now last) SESSION_TIMEOUT = false).
  { intros now last H. rewrite fresh_or_stale, ltb_timeout, H. reflexivity. }
  run_method. repeat apply conj.
  - intros account last ->. reflexivity.
  - intros ->. reflexivity.
  - destruct (Dict.get session_id _) as [[a l]|]; reflexivity.
  - intros account last Hget H. rewrite Hget. simpl.
    rewrite Hget, (Hstale _ _ H). now split.
  - intros account last Hget H. rewrite Hget. simpl.
    apply (stale_threshold _ _ 900%Q (Qeq_refl _)) in H.
    rewrite Hget, (Hstale _ _ H). now split.
  - intros account H. rewrite dict_get_set_same. simpl.
    rewrite dict_get_set_same, (Hstale _ _ H). now split.
  - intros account last Hget H. rewrite Hget in *. simpl in *.
    rewrite dict_get_set_same. simpl.
    rewrite dict_get_set_same, (Hstale _ _ H). now split.
Qed.

Lemma get_authenticated_account_spec_witness :
  let w1 := after (authenticate_session hourly_clock "s" "ACC1" (init 0)) in
  let r := is_authenticated hourly_clock "s" w1 in
  result r = false
  /\ result (get_authenticated_account "s" (after r)) = Some "ACC1".
Proof.
  pose proof (get_authenticated_account_spec hourly_clock "s" (init 0)) as T.
  cbv zeta in T. destruct T as (_ & _ & _ & _ & _ & Hscenario & _).
  apply (Hscenario "ACC1"). vm_compute. reflexivity.
Defined.

(** C8. [end_session(s)] removes the record of [s] when there is one and
    answers true exactly when it removed something: true when [s] had a
    record (the store then has one record less), false when it had none
    (the state is then unchanged).  Other sessions are untouched.  So an
    authenticated session is ended with true once, and every further call,
    like a call for a session never authenticated, answers false. *)
Theorem end_session_spec (session_id : string) (w : world)
    (Hwf : Dict.wf (authenticated_sessions w)) :
  let r := end_session session_id w in
  let d := authenticated_sessions w in
  let d1 := authenticated_sessions (after r) in
  (result r = true <-> exists record, Dict.get session_id d = Some record)
  /\ (result r = true <-> S (List.length d1) = List.length d)
  /\ (result r = false <-> after r = w)
  /\ Dict.get session_id d1 = None
  /\ (forall other, other <> session_id -> Dict.get other d1 = Dict.get other d)
  /\ result (end_session session_id (after r)) = false
  /\ (forall clock account,
        let w1 := after (authenticate_session clock session_id account w) in
        let r1 := end_session session_id w1 in
        result r1 = true
        /\ result (end_session session_id (after r1)) = false)
  /\ (forall calls, result (end_session session_id (init calls)) = false).
Proof.
  run_method. unfold Dict.contains.
  destruct (Dict.get session_id (authenticated_sessions w)) as [record|] eqn:Hget;
    simpl.
  - assert (Hlen : S (List.length (Dict.del session_id (authenticated_sessions w)))
                   = List.length (authenticated_sessions w)).
    { apply dict_del_length. unfold Dict.contains. now rewrite Hget. }
    repeat apply conj.
    + intros _. now exists record.
    + reflexivity.
    + intros _. exact Hlen.
    + reflexivity.
    + discriminate.
    + intros Heq. exfalso. rewrite <- Heq in Hlen at 2. simpl in Hlen. lia.
    + now apply dict_get_del_same.
    + intros other Hne. now apply dict_get_del_other.
    + now rewrite dict_get_del_same.
    + intros clock account. rewrite dict_get_set_same. simpl.
      rewrite dict_get_del_same; [tauto|]. now apply dict_wf_set.
    + reflexivity.
  - repeat apply conj; try reflexivity; try discriminate.
    + intros [record H]. discriminate.
    + intros H. lia.
    + exact Hget.
    + now rewrite Hget.
    + intros clock account. rewrite dict_get_set_same. simpl.
      rewrite dict_get_del_same; [tauto|]. now apply dict_wf_set.
Qed.

Lemma end_session_spec_witness :
  let w1 := after (authenticate_session ten_minute_clock "s" "ACC1" (init 0)) in
  let r1 := end_session "s" w1 in
  result r1 = true
  /\ result (end_session "s" (after r1)) = false
  /\ result (end_session "s" (init 0)) = false.
Proof.
  pose proof (end_session_spec "s" (init 0) (wf_init 0)) as T.
  cbv zeta in T. destruct T as (_ & _ & _ & _ & _ & _ & Honce & Hnever).
  destruct (Honce ten_minute_clock "ACC1") as [Htrue Hfalse].
  exact (conj Htrue (conj Hfalse (Hnever 0))).
Defined.

(** C9. [update_activity(s)] sets the [last_activity] of the record of
    [s] to the reading of the clock and keeps its account; without a
    record it does nothing at all.  The records of the other sessions, and
    the order of the store, stay as they were.  The window of 900 seconds
    then runs from the update: [is_authenticated(s)] is true at any later
    reading within 900 seconds of it, however old the record was. *)
Theorem update_session_activity_spec (clock : nat -> Q) (session_id : string)
    (w : world) :
  let r := update_session_activity clock session_id w in
  let d := authenticated_sessions w in
  let d1 := authenticated_sessions (after r) in
  (forall account last,
      Dict.get session_id d = Some (account, last) ->
      Dict.get session_id d1 = Some (account, clock (time_calls w)))
  /\ (Dict.get session_id d = None -> after r = w)
  /\ (forall other, other <> session_id -> Dict.get other d1 = Dict.get other d)
  /\ Dict.keys d1 = Dict.keys d
  /\ (forall account last,
        Dict.get session_id d = Some (account, last) ->
        (clock (S (time_calls w)) - clock (time_calls w) <= 900)%Q ->
        result (is_authenticated clock session_id (after r)) = true).
Proof.
  run_method.
  destruct (Dict.get session_id (authenticated_sessions w)) as [[a l]|] eqn:Hget;
    simpl.
  - repeat apply conj.
    + intros account last [= <- <-]. apply dict_get_set_same.
    + discriminate.
    + intros other Hne. now apply dict_get_set_other.
    + rewrite dict_keys_set. unfold Dict.contains. now rewrite Hget.
    + intros account last _ H. rewrite dict_get_set_same. simpl.
      apply (fresh_threshold _ _ _ SESSION_TIMEOUT_seconds).
      unfold half_ulp_900. lra.
  - repeat apply conj; try reflexivity; discriminate.
Qed.

Lemma update_session_activity_spec_witness :
  let w := one_session 1 in
  let w1 := after (update_session_activity ten_minute_clock "s" w) in
  (* updated at 600, asked at 1200: beyond 900 seconds after 0 *)
  result (is_authenticated ten_minute_clock "s" w1) = true
  /\ Dict.get "s" (authenticated_sessions w1) = Some ("ACC1", ten_minute_clock 1)
  (* not updated, asked at 1200 *)
  /\ result (is_authenticated ten_minute_clock "s" (one_session 2)) = false.
Proof.
  pose proof (update_session_activity_spec ten_minute_clock "s" (one_session 1))
    as T.
  cbv zeta in T. destruct T as (Hrecord & _ & _ & _ & Hwindow).
  split; [|split].
  - apply (Hwindow "ACC1" 0%Q); [reflexivity | vm_compute; discriminate].
  - apply (Hrecord "ACC1" 0%Q). reflexivity.
  - reflexivity.
Defined.

(** ** Expiry *)

Lemma collect_expired_filter (now : Q) (d : Dict.dict session_record) :
  collect_expired now d = map fst (filter (stale now) d).
Proof.
  induction d as [|[k [a l]] d IH]; simpl; [reflexivity|].
  unfold stale at 1. simpl.
  destruct (Float64.ltb SESSION_TIMEOUT (Float64.sub now l)); simpl;
    now rewrite IH.
Qed.

(** What the two loops of the clean-up leave in a well-formed store. *)
Lemma remove_collected (now : Q) (d : Dict.dict session_record) :
  Dict.wf d ->
  remove_expired (collect_expired now (Dict.items d)) d
  = filter (fun e => negb (stale now e)) d.
Proof.
  intros Hwf. unfold Dict.items.
  rewrite remove_expired_filter, collect_expired_filter by exact Hwf.
  apply filter_ext_in. intros e He. f_equal.
  destruct (stale now e) eqn:Hstale.
  - apply existsb_exists. exists (fst e). split.
    + apply in_map. apply filter_In. now split.
    + apply String.eqb_refl.
  - apply Bool.not_true_iff_false. intros Hex.
    apply existsb_exists in Hex as [k [Hk Heq]].
    apply String.eqb_eq in Heq. subst k.
    apply in_map_iff in Hk as [e' [Hfst He']].
    apply filter_In in He' as [He' Hstale'].
    assert (e' = e) by (eapply dict_entry_unique; eauto).
    subst e'. congruence.
Qed.

Lemma filter_none_left {A : Type} (p : A -> bool) (l : list A) :
  filter p (filter (fun x => negb (p x)) l) = [].
Proof.
  induction l as [|x l IH]; simpl; [reflexivity|].
  destruct (p x) eqn:Hp; simpl; [exact IH|]. now rewrite Hp.
Qed.

(** The test of the clean-up on an entry, as Python computes it and in
    exact terms. *)
Lemma stale_ltb (now : Q) (e : string * session_record) :
  stale now e = Float64.ltb 900 (Float64.sub now (snd (snd e))).
Proof. reflexivity. Qed.

Lemma stale_leb (now : Q) (e : string * session_record) :
  stale now e = negb (Float64.leb (Float64.sub now (snd (snd e))) 900).
Proof. unfold stale. now rewrite ltb_negb_leb. Qed.

Lemma stale_iff (now : Q) (e : string * session_record) :
  stale now e = true <-> (900 + half_ulp_900 < now - snd (snd e))%Q.
Proof. unfold stale. now apply stale_threshold. Qed.

Lemma fresh_iff (now : Q) (e : string * session_record) :
  stale now e = false <-> (now - snd (snd e) <= 900 + half_ulp_900)%Q.
Proof.
  rewrite <- Bool.not_true_iff_false, stale_iff.
  split; [apply Qnot_lt_le | apply Qle_not_lt].
Qed.

Lemma stale_same_reading (t t' : Q) (e : string * session_record) :
  (t == t')%Q -> stale t e = stale t' e.
Proof.
  intros Heq.
  destruct (stale t e) eqn:H1, (stale t' e) eqn:H2; try reflexivity; exfalso.
  - apply stale_iff in H1. apply fresh_iff in H2.
    rewrite Heq in H1. exact (Qlt_not_le _ _ H1 H2).
  - apply stale_iff in H2. apply fresh_iff in H1.
    rewrite Heq in H1. exact (Qlt_not_le _ _ H2 H1).
Qed.

(** The identifiers the first loop collects, and the records the second
    loop leaves. *)
Lemma collected_iff (now : Q) (d : Dict.dict session_record) (k : string) :
  Dict.wf d ->
  (In k (collect_expired now (Dict.items d)) <->
   exists account last,
     Dict.get k d = Some (account, last)
     /\ Float64.ltb 900 (Float64.sub now last) = true).
Proof.
  intros Hwf. unfold Dict.items. rewrite collect_expired_filter, in_map_iff.
  split.
  - intros [[k' [a l]] [Hk He]]. simpl in Hk. subst k'.
    apply filter_In in He as [He Hs]. exists a, l. split.
    + now apply dict_In_get.
    + exact Hs.
  - intros [a [l [Hget Hs]]]. exists (k, (a, l)). split; [reflexivity|].
    apply filter_In. split; [now apply dict_get_In | exact Hs].
Qed.

Lemma kept_get (now : Q) (d : Dict.dict session_record) (k : string) :
  Dict.wf d ->
  Dict.get k (remove_expired (collect_expired now (Dict.items d)) d)
  = match Dict.get k d with
    | Some record => if stale now (k, record) then None else Some record
    | None => None
    end.
Proof.
  intros Hwf. rewrite remove_collected, dict_get_filter by exact Hwf.
  destruct (Dict.get k d) as [record|]; [|reflexivity].
  now destruct (stale now _).
Qed.

(** C2. [cleanup_expired] reads the clock once, at entry.  With [now]
    that reading, it returns the identifiers of the records with
    [now - last_activity > 900], strictly, the difference being the one
    Python computes, in the order in which the store iterates, and leaves
    in the store exactly the other records, as they were.  Afterwards
    [get_authenticated_account] is absent for each identifier returned.
    In exact terms the test holds when [now] is later than [last_activity]
    by more than 900 seconds and half a spacing of doubles. *)
Theorem cleanup_expired_sessions_spec (clock : nat -> Q) (w : world)
    (Hwf : Dict.wf (authenticated_sessions w)) :
  let now := clock (time_calls w) in
  let r := cleanup_expired_sessions clock w in
  let d := authenticated_sessions w in
  let d1 := authenticated_sessions (after r) in
  time_calls (after r) = S (time_calls w)
  /\ result r = map fst (filter (stale now) (Dict.items d))
  /\ (forall sid,
        In sid (result r) <->
        exists account last,
          Dict.get sid d = Some (account, last)
          /\ Float64.ltb 900 (Float64.sub now last) = true)
  /\ (forall last,
        Float64.ltb 900 (Float64.sub now last) = true
        <-> (900 + half_ulp_900 < now - last)%Q)
  /\ d1 = filter (fun e => negb (stale now e)) d
  /\ (forall sid, In sid (result r) -> Dict.get sid d1 = None)
  /\ (forall sid, ~ In sid (result r) -> Dict.get sid d1 = Dict.get sid d)
  /\ (forall sid,
        In sid (result r) ->
        result (get_authenticated_account sid (after r)) = None).
Proof.
  run_method.
  set (now := clock (time_calls w)). set (d := authenticated_sessions w).
  assert (Hgone : forall sid,
             In sid (collect_expired now (Dict.items d)) ->
             Dict.get sid (remove_expired (collect_expired now (Dict.items d)) d)
             = None).
  { intros sid Hsid. rewrite (kept_get now d sid Hwf).
    apply (collected_iff now d sid Hwf) in Hsid as [a [l [Hg Hs]]].
    rewrite Hg. destruct (stale now _) eqn:Hf; [reflexivity|].
    rewrite stale_ltb in Hf. simpl in Hf. congruence. }
  repeat apply conj.
  - reflexivity.
  - apply collect_expired_filter.
  - intros sid. now apply collected_iff.
  - intros last. now apply stale_threshold.
  - now apply remove_collected.
  - exact Hgone.
  - intros sid Hsid. rewrite (kept_get now d sid Hwf).
    destruct (Dict.get sid d) as [[a l]|] eqn:Hg; [|reflexivity].
    destruct (stale now _) eqn:Hs; [|reflexivity].
    exfalso. apply Hsid. apply (collected_iff now d sid Hwf).
    exists a, l. split; [exact Hg|]. rewrite stale_ltb in Hs. exact Hs.
  - intros sid Hsid. now rewrite (Hgone sid Hsid).
Qed.

Lemma cleanup_expired_sessions_spec_witness :
  let r := cleanup_expired_sessions stopped_clock three_sessions in
  result r = ["s1"; "s3"]
  /\ authenticated_sessions (after r) = [("s2", ("ACC2", 1000%Q))]
  /\ result (get_authenticated_account "s1" (after r)) = None
  /\ result (get_authenticated_account "s3" (after r)) = None.
Proof.
  assert (Hwf : Dict.wf (authenticated_sessions three_sessions))
    by distinct_keys.
  pose proof (cleanup_expired_sessions_spec stopped_clock three_sessions Hwf)
    as T.
  cbv zeta in T. destruct T as (_ & Hres & _ & _ & Hstore & _ & _ & Hgone).
  split; [|split; [|split]].
  - rewrite Hres. reflexivity.
  - rewrite Hstore. reflexivity.
  - apply Hgone. rewrite Hres. left. reflexivity.
  - apply Hgone. rewrite Hres. right. left. reflexivity.
Defined.

(** C10. While the clock stands still, [cleanup_expired] is idempotent
    and cannot be seen through [is_authenticated].  The records it leaves
    are exactly those of the store with [now - last_activity <= 900], the
    difference being the one Python computes, with the account and the
    timestamp they had; for every session identifier [is_authenticated]
    gives the same answer on the store before and on the store after the
    call; and a second call returns the empty list and leaves the store as
    the first call left it. *)
Theorem cleanup_expired_sessions_idempotent (clock : nat -> Q) (w : world)
    (Hwf : Dict.wf (authenticated_sessions w))
    (Hstill : (clock (S (time_calls w)) == clock (time_calls w))%Q) :
  let now := clock (time_calls w) in
  let r := cleanup_expired_sessions clock w in
  let d := authenticated_sessions w in
  let d1 := authenticated_sessions (after r) in
  (forall sid record,
      Dict.get sid d1 = Some record <->
      Dict.get sid d = Some record
      /\ Float64.leb (Float64.sub now (snd record)) 900 = true)
  /\ (forall sid,
        result (is_authenticated clock sid (after r))
        = result (is_authenticated clock sid w))
  /\ (let r2 := cleanup_expired_sessions clock (after r) in
      result r2 = [] /\ authenticated_sessions (after r2) = d1).
Proof.
  run_method.
  set (now := clock (time_calls w)) in *.
  set (d := authenticated_sessions w) in *.
  assert (Hnone : collect_expired (clock (S (time_calls w)))
                    (Dict.items
                       (remove_expired (collect_expired now (Dict.items d)) d))
                  = []).
  { rewrite (remove_collected now d Hwf). unfold Dict.items.
    rewrite collect_expired_filter.
    rewrite (filter_ext _ (stale now)
               (fun e => stale_same_reading _ _ e Hstill)).
    now rewrite filter_none_left. }
  repeat apply conj.
  - intros sid record. rewrite (kept_get now d sid Hwf).
    destruct (Dict.get sid d) as [record'|]; [|split; [discriminate|tauto]].
    destruct (stale now _) eqn:Hs; rewrite stale_leb in Hs; simpl in Hs.
    + apply Bool.negb_true_iff in Hs.
      split; [discriminate|]. intros [[= ->] Hfresh]. congruence.
    + apply Bool.negb_false_iff in Hs.
      split; [intros [= ->]; now split | tauto].
  - intros sid. rewrite (kept_get now d sid Hwf).
    destruct (Dict.get sid d) as [[a l]|]; [|reflexivity].
    destruct (stale now _) eqn:Hs; simpl.
    + apply stale_iff in Hs. simpl in Hs. symmetry.
      apply Bool.not_true_iff_false. intros Hfresh.
      apply (fresh_threshold _ _ _ SESSION_TIMEOUT_seconds) in Hfresh.
      exact (Qlt_not_le _ _ Hs Hfresh).
    + apply fresh_iff in Hs. simpl in Hs.
      transitivity true; [|symmetry];
        apply (fresh_threshold _ _ _ SESSION_TIMEOUT_seconds);
        [now rewrite Hstill | exact Hs].
  - exact Hnone.
  - now rewrite Hnone.
Qed.

Lemma cleanup_expired_sessions_idempotent_witness :
  let r := cleanup_expired_sessions stopped_clock three_sessions in
  let r2 := cleanup_expired_sessions stopped_clock (after r) in
  result r2 = []
  /\ authenticated_sessions (after r2) = authenticated_sessions (after r)
  /\ result (is_authenticated stopped_clock "s1" (after r))
     = result (is_authenticated stopped_clock "s1" three_sessions)
  /\ result (is_authenticated stopped_clock "s2" (after r))
     = result (is_authenticated stopped_clock "s2" three_sessions).
Proof.
  assert (Hwf : Dict.wf (authenticated_sessions three_sessions))
    by distinct_keys.
  assert (Hstill : (stopped_clock (S (time_calls three_sessions))
                    == stopped_clock (time_calls three_sessions))%Q)
    by reflexivity.
  pose proof (cleanup_expired_sessions_idempotent stopped_clock three_sessions
                Hwf Hstill) as T.
  cbv zeta in T. destruct T as (_ & Hsame & Hempty & Hstore).
  exact (conj Hempty (conj Hstore (conj (Hsame "s1") (Hsame "s2")))).
Defined.

(** ** The PIN scanner *)

Section ScannerFacts.
Variable json_loads : string -> raising pyobj.

Lemma seq_fallthrough (c1 c2 : control) :
  seq c1 c2 = Fallthrough <-> c1 = Fallthrough /\ c2 = Fallthrough.
Proof. destruct c1; simpl; intuition discriminate. Qed.

Lemma tool_call_step_fallthrough (tc : tool_call) :
  tool_call_step json_loads tc = Fallthrough <-> unmatched_call json_loads tc.
Proof.
  unfold tool_call_step, try_validate_pin, unmatched_call, method_get,
    try_except_JSONDecodeError.
  destruct (String.eqb_spec (name (function tc)) "validate_pin") as [Hn|Hn].
  - destruct (json_loads (arguments (function tc))) as [v|e].
    + split.
      * intros H. right. right.
        destruct v as [| | | | | |d]; try discriminate.
        exists d. split; [reflexivity|].
        destruct (Dict.get "pin" d) as [pin|]; [|now left].
        right. exists pin. split; [reflexivity|].
        destruct (truthy pin); [discriminate | reflexivity].
      * intros [H|[H|[d [[= ->] H]]]]; [contradiction | discriminate |].
        destruct H as [->|[pin [-> Hf]]]; [reflexivity | now rewrite Hf].
    + split.
      * intros H. destruct e; [now right; left | discriminate].
      * intros [H|[[= ->]|[d [H _]]]];
          [contradiction | reflexivity | discriminate].
  - split; [now left | reflexivity].
Qed.

Lemma for_tool_calls_app (l1 l2 : list tool_call) :
  for_tool_calls json_loads (l1 ++ l2)
  = seq (for_tool_calls json_loads l1) (for_tool_calls json_loads l2).
Proof.
  induction l1 as [|tc l1 IH]; simpl; [reflexivity|].
  rewrite IH. now destruct (tool_call_step json_loads tc).
Qed.

Lemma for_tool_calls_fallthrough (tcs : list tool_call) :
  for_tool_calls json_loads tcs = Fallthrough
  <-> Forall (unmatched_call json_loads) tcs.
Proof.
  induction tcs as [|tc tcs IH]; simpl.
  - split; [constructor | reflexivity].
  - rewrite seq_fallthrough, tool_call_step_fallthrough, IH.
    split; [intros [H1 H2]; now constructor | now inversion 1].
Qed.

Lemma message_step_fallthrough (msg : message) :
  message_step json_loads msg = Fallthrough <-> unmatched json_loads msg.
Proof.
  unfold message_step, user_step, assistant_step, unmatched.
  rewrite seq_fallthrough.
  destruct (String.eqb_spec (role msg) "user") as [Hu|Hu].
  - assert (Ha : String.eqb (role msg) "assistant" = false)
      by (rewrite Hu; reflexivity).
    assert (Hne : role msg <> "assistant") by (rewrite Hu; discriminate).
    rewrite Ha.
    destruct (String.length (content msg) =? 4) eqn:Hlen;
      destruct (str_isdigit (content msg)) eqn:Hdig; simpl.
    + apply Nat.eqb_eq in Hlen. split; [intros [H _]; discriminate|].
      intros [H _]. exfalso. apply (H Hu). now split.
    + split; [|destruct (tool_calls msg); tauto].
      intros _. split; [intros _ [_ H]; discriminate | tauto].
    + apply Nat.eqb_neq in Hlen.
      split; [|destruct (tool_calls msg); tauto].
      intros _. split; [intros _ [H _]; contradiction | tauto].
    + apply Nat.eqb_neq in Hlen.
      split; [|destruct (tool_calls msg); tauto].
      intros _. split; [intros _ [H _]; contradiction | tauto].
  - destruct (tool_calls msg) as [tcs|].
    + destruct (String.eqb_spec (role msg) "assistant") as [Has|Has].
      * rewrite for_tool_calls_fallthrough. split.
        -- intros [_ H]. split; [tauto|]. now intros _ tcs' [= <-].
        -- intros [_ H]. split; [reflexivity | now apply H].
      * split; [|tauto]. intros _. split; tauto.
    + split; [|tauto]. intros _. split; [tauto | discriminate].
Qed.

Lemma for_messages_app (l1 l2 : list message) :
  for_messages json_loads (l1 ++ l2)
  = seq (for_messages json_loads l1) (for_messages json_loads l2).
Proof.
  induction l1 as [|m l1 IH]; simpl; [reflexivity|].
  rewrite IH. now destruct (message_step json_loads m).
Qed.

Lemma for_messages_fallthrough (msgs : list message) :
  for_messages json_loads msgs = Fallthrough
  <-> Forall (unmatched json_loads) msgs.
Proof.
  induction msgs as [|m msgs IH]; simpl.
  - split; [constructor | reflexivity].
  - rewrite seq_fallthrough, message_step_fallthrough, IH.
    split; [intros [H1 H2]; now constructor | now inversion 1].
Qed.

(** The scan looks at the most recent messages first, and the first one
    that does not fall through decides. *)
Lemma scan_decided (older newer : list message) (msg : message) :
  Forall (unmatched json_loads) newer ->
  for_messages json_loads (rev (older ++ msg :: newer))
  = seq (message_step json_loads msg) (for_messages json_loads (rev older)).
Proof.
  intros Hnewer. rewrite rev_app_distr. simpl.
  rewrite <- app_assoc. simpl. rewrite for_messages_app.
  apply Forall_rev in Hnewer. apply for_messages_fallthrough in Hnewer.
  now rewrite Hnewer.
Qed.

(** X9. A decoding error never leaves the function, whatever the
    conversation and whatever the decoder. *)
Lemma JSONDecodeError_caught (conversation : list message) :
  get_cached_pin_from_conversation json_loads conversation
  <> Raises JSONDecodeError.
Proof.
  unfold get_cached_pin_from_conversation.
  assert (Hcall : forall tc,
             tool_call_step json_loads tc <> Raise JSONDecodeError).
  { intros tc. unfold tool_call_step, try_except_JSONDecodeError.
    destruct (String.eqb _ _); [|discriminate].
    destruct (try_validate_pin json_loads tc) as [|v|[|]]; discriminate. }
  assert (Hcalls : forall tcs,
             for_tool_calls json_loads tcs <> Raise JSONDecodeError).
  { induction tcs as [|tc tcs IH]; simpl; [discriminate|].
    specialize (Hcall tc).
    destruct (tool_call_step json_loads tc); simpl; assumption. }
  assert (Hmsg : forall msg,
             message_step json_loads msg <> Raise JSONDecodeError).
  { intros msg. unfold message_step, user_step, assistant_step.
    destruct (String.eqb (role msg) "user").
    - destruct (_ && _); simpl; [discriminate|].
      destruct (tool_calls msg) as [tcs|]; [|discriminate].
      destruct (String.eqb _ _); [apply Hcalls | discriminate].
    - simpl. destruct (tool_calls msg) as [tcs|]; [|discriminate].
      destruct (String.eqb _ _); [apply Hcalls | discriminate]. }
  assert (Hall : forall msgs,
             for_messages json_loads msgs <> Raise JSONDecodeError).
  { induction msgs as [|m msgs IH]; simpl; [discriminate|].
    specialize (Hmsg m).
    destruct (message_step json_loads m); simpl; assumption. }
  specialize (Hall (rev conversation)).
  destruct (for_messages json_loads (rev conversation)); congruence.
Qed.

(** X11. A payload that decodes to something other than a record makes
    the function raise [AttributeError]: when every message after [msg] is
    passed over, [msg] is an assistant message, and its first invocation
    that is not passed over is a [validate_pin] whose payload decodes to a
    value that is not a record, the scan ends there with that exception,
    whatever the older messages hold. *)
Lemma non_record_payload_raises (older newer : list message) (msg : message)
    (pre post : list tool_call) (tc : tool_call) (v : pyobj) :
  Forall (unmatched json_loads) newer ->
  role msg = "assistant" ->
  tool_calls msg = Some (pre ++ tc :: post) ->
  Forall (unmatched_call json_loads) pre ->
  name (function tc) = "validate_pin" ->
  json_loads (arguments (function tc)) = Returns v ->
  (forall d, v <> PyDict d) ->
  get_cached_pin_from_conversation json_loads (older ++ msg :: newer)
  = Raises AttributeError.
Proof.
  intros Hnewer Hrole Htcs Hpre Hname Hloads Hv.
  unfold get_cached_pin_from_conversation.
  rewrite (scan_decided _ _ _ Hnewer).
  unfold message_step, user_step, assistant_step.
  rewrite Hrole, Htcs. simpl. rewrite for_tool_calls_app.
  apply for_tool_calls_fallthrough in Hpre. rewrite Hpre. simpl.
  unfold tool_call_step, try_validate_pin. rewrite Hname, Hloads. simpl.
  destruct v; try reflexivity. exfalso. now apply (Hv d).
Qed.

End ScannerFacts.

Lemma all_chars_weaken (p q : ascii -> bool) (s : string) :
  (forall c, p c = true -> q c = true) ->
  all_chars p s = true -> all_chars q s = true.
Proof.
  intros Hpq. induction s as [|c s IH]; simpl; [reflexivity|].
  intros H. apply andb_true_iff in H as [Hc Hs].
  apply andb_true_iff. split; [now apply Hpq | now apply IH].
Qed.

Lemma decimal_digit_isdigit (c : ascii) :
  is_decimal_digit c = true -> char_isdigit c = true.
Proof.
  unfold is_decimal_digit, char_isdigit. intros H. cbv zeta.
  now rewrite H.
Qed.

(** C5, as amended.  The scan goes from the most recent message to the
    oldest, and the first message that yields a PIN decides, whatever the
    older ones are.  When that message has role "user" and a content of
    exactly 4 characters, all digits for [str.isdigit] (a decimal digit
    or one of the superscripts one, two and three), its content is
    returned; four decimal digits are such a content, so ["1234"] is
    returned, while ["12a4"] and ["12345"] yield nothing.  When every
    message is passed over, the result is absent. *)
Theorem user_pin_scan (json_loads : string -> raising pyobj) :
  (forall older newer msg,
      Forall (unmatched json_loads) newer ->
      role msg = "user" ->
      String.length (content msg) = 4 ->
      str_isdigit (content msg) = true ->
      get_cached_pin_from_conversation json_loads (older ++ msg :: newer)
      = Returns (PyStr (content msg)))
  /\ (forall c,
        char_isdigit c = true <->
        is_decimal_digit c = true \/ In (nat_of_ascii c) [178; 179; 185])
  /\ (forall text,
        String.length text = 4 ->
        all_chars is_decimal_digit text = true ->
        str_isdigit text = true)
  /\ (forall conversation,
        Forall (unmatched json_loads) conversation ->
        get_cached_pin_from_conversation json_loads conversation
        = Returns PyNone)
  /\ get_cached_pin_from_conversation json_loads [user_message "1234"]
     = Returns (PyStr "1234")
  /\ get_cached_pin_from_conversation json_loads [user_message "12a4"]
     = Returns PyNone
  /\ get_cached_pin_from_conversation json_loads [user_message "12345"]
     = Returns PyNone.
Proof.
  repeat apply conj; try reflexivity.
  - intros older newer msg Hnewer Hrole Hlen Hdig.
    unfold get_cached_pin_from_conversation.
    rewrite (scan_decided _ _ _ _ Hnewer).
    unfold message_step, user_step. rewrite Hrole, Hlen, Hdig. reflexivity.
  - intros c. unfold char_isdigit, is_decimal_digit. cbv zeta.
    rewrite !orb_true_iff, !Nat.eqb_eq. simpl. intuition congruence.
  - intros text Hlen Hdec. unfold str_isdigit.
    apply andb_true_iff. split.
    + destruct text; [discriminate | reflexivity].
    + exact (all_chars_weaken _ _ _ decimal_digit_isdigit Hdec).
  - intros conversation Hall. unfold get_cached_pin_from_conversation.
    apply Forall_rev in Hall. apply for_messages_fallthrough in Hall.
    now rewrite Hall.
Qed.

Lemma user_pin_scan_witness :
  get_cached_pin_from_conversation Json.loads
    [user_message "9999"; validate_pin_message "not-json";
     user_message "0042"; user_message "hello"]
  = Returns (PyStr "0042")
  /\ get_cached_pin_from_conversation Json.loads
       [user_message "hello"; validate_pin_message "not-json"]
     = Returns PyNone.
Proof.
  destruct (user_pin_scan Json.loads) as (Hfirst & _ & _ & Hnone & _).
  split.
  - apply (Hfirst [user_message "9999"; validate_pin_message "not-json"]
                  [user_message "hello"] (user_message "0042"));
      try reflexivity.
    constructor; [|constructor].
    split; [intros _ [H _]; discriminate | discriminate].
  - apply Hnone. constructor; [|constructor; [|constructor]].
    + split; [intros _ [H _]; discriminate | discriminate].
    + split; [discriminate|]. intros _ tcs [= <-].
      constructor; [|constructor]. right. left. reflexivity.
Defined.

(** C5 as the specification words it fails: a user message of four
    characters that are not all decimal digits, and that carries no tool
    invocation, still yields a PIN. *)
Lemma user_pin_scan_counterexample :
  spec_user_pattern (user_message superscript_content) = false
  /\ tool_calls (user_message superscript_content) = None
  /\ get_cached_pin_from_conversation Json.loads
       [user_message superscript_content]
     = Returns (PyStr superscript_content)
  /\ get_cached_pin_from_conversation Json.loads
       [user_message superscript_content]
     <> Returns PyNone.
Proof.
  repeat apply conj; try reflexivity. discriminate.
Qed.

(** X16. In an assistant message that carries tool invocations, these
    are tried in the order of the message.  A [validate_pin] invocation
    whose payload makes the decoder raise [JSONDecodeError] is skipped:
    the result is the one of the conversation without that invocation.  The first invocation that is
    not passed over, when it is a [validate_pin] whose payload decodes to
    a record holding a [pin] of true truth value (for a string: not
    empty), makes the function return that [pin]; so the payload
    [{"pin":"5678"}] yields ["5678"]. *)
Theorem validate_pin_invocations (json_loads : string -> raising pyobj) :
  (forall pre tc post,
      name (function tc) = "validate_pin" ->
      json_loads (arguments (function tc)) = Raises JSONDecodeError ->
      for_tool_calls json_loads (pre ++ tc :: post)
      = for_tool_calls json_loads (pre ++ post))
  /\ (forall older newer r c pre tc post,
        name (function tc) = "validate_pin" ->
        json_loads (arguments (function tc)) = Raises JSONDecodeError ->
        get_cached_pin_from_conversation json_loads
          (older ++ mkMessage r c (Some (pre ++ tc :: post)) :: newer)
        = get_cached_pin_from_conversation json_loads
            (older ++ mkMessage r c (Some (pre ++ post)) :: newer))
  /\ (forall older newer msg pre tc post d pin,
        Forall (unmatched json_loads) newer ->
        role msg = "assistant" ->
        tool_calls msg = Some (pre ++ tc :: post) ->
        Forall (unmatched_call json_loads) pre ->
        name (function tc) = "validate_pin" ->
        json_loads (arguments (function tc)) = Returns (PyDict d) ->
        Dict.get "pin" d = Some pin ->
        truthy pin = true ->
        get_cached_pin_from_conversation json_loads (older ++ msg :: newer)
        = Returns pin)
  /\ (forall text, truthy (PyStr text) = true <-> text <> EmptyString)
  /\ get_cached_pin_from_conversation Json.loads
       [validate_pin_message (Json.text "{'pin':'5678'}")]
     = Returns (PyStr "5678").
Proof.
  assert (Hskip : forall pre tc post,
             name (function tc) = "validate_pin" ->
             json_loads (arguments (function tc)) = Raises JSONDecodeError ->
             for_tool_calls json_loads (pre ++ tc :: post)
             = for_tool_calls json_loads (pre ++ post)).
  { intros pre tc post Hname Hloads.
    rewrite !for_tool_calls_app. simpl.
    replace (tool_call_step json_loads tc) with Fallthrough; [reflexivity|].
    symmetry. apply tool_call_step_fallthrough. right. now left. }
  repeat apply conj.
  - exact Hskip.
  - intros older newer r c pre tc post Hname Hloads.
    unfold get_cached_pin_from_conversation.
    rewrite !rev_app_distr. simpl. rewrite <- !app_assoc. simpl.
    rewrite !for_messages_app. simpl.
    replace (message_step json_loads (mkMessage r c (Some (pre ++ tc :: post))))
      with (message_step json_loads (mkMessage r c (Some (pre ++ post))));
      [reflexivity|].
    unfold message_step, user_step, assistant_step. simpl.
    now rewrite (Hskip pre tc post Hname Hloads).
  - intros older newer msg pre tc post d pin
      Hnewer Hrole Htcs Hpre Hname Hloads Hpin Htruthy.
    unfold get_cached_pin_from_conversation.
    rewrite (scan_decided _ _ _ _ Hnewer).
    unfold message_step, user_step, assistant_step.
    rewrite Hrole, Htcs. simpl. rewrite for_tool_calls_app.
    apply for_tool_calls_fallthrough in Hpre. rewrite Hpre. simpl.
    unfold tool_call_step, try_validate_pin, method_get.
    rewrite Hname, Hloads, Hpin. simpl. now rewrite Htruthy.
  - intros text. simpl. destruct (String.eqb_spec text EmptyString); simpl.
    + split; [discriminate | contradiction].
    + split; [now intros _ | reflexivity].
  - reflexivity.
Qed.

Lemma validate_pin_invocations_witness :
  let call name payload :=
    {| function := {| name := name; arguments := payload |} |} in
  get_cached_pin_from_conversation Json.loads
    [user_message "1234";
     {| role := "assistant"; content := EmptyString;
        tool_calls :=
          Some [call "get_balance" "{}";
                call "validate_pin" "not-json";
                call "validate_pin" (Json.text "{'pin':'5678'}");
                call "validate_pin" (Json.text "{'pin':'0000'}")] |};
     user_message "thanks"]
  = Returns (PyStr "5678").
Proof.
  intros call.
  destruct (validate_pin_invocations Json.loads) as (_ & _ & Hfound & _).
  apply (Hfound [user_message "1234"] [user_message "thanks"] _
           [call "get_balance" "{}"; call "validate_pin" "not-json"]
           (call "validate_pin" (Json.text "{'pin':'5678'}"))
           [call "validate_pin" (Json.text "{'pin':'0000'}")]
           [("pin", PyStr "5678")] (PyStr "5678")); try reflexivity.
  - constructor; [|constructor].
    split; [intros _ [H _]; discriminate | discriminate].
  - constructor; [|constructor; [|constructor]].
    + left. discriminate.
    + right. left. reflexivity.
Defined.

(** C4.  A payload can be unfit as arguments and still decode: the text
    of a list, of a number, of [null].  Such a payload gets past
    [except json.JSONDecodeError]: where ["not-json"] is skipped and the
    scan goes on to the earlier message, ["[]"] makes the function raise
    [AttributeError]. *)
Theorem non_record_payload_escapes :
  Json.loads "not-json" = Raises JSONDecodeError
  /\ get_cached_pin_from_conversation Json.loads
       [user_message "1234"; validate_pin_message "not-json"]
     = Returns (PyStr "1234")
  /\ Json.loads "[]" = Returns (PyList [])
  /\ get_cached_pin_from_conversation Json.loads
       [user_message "1234"; validate_pin_message "[]"]
     = Raises AttributeError.
Proof. repeat apply conj; reflexivity. Qed.

(** C6. The tool invocations of an assistant message are tried in the
    order of the message, and a [validate_pin] payload that decodes to a
    record with a [pin] makes the function return it: [{"pin":"5678"}]
    yields ["5678"].  A payload that does not parse as a record is skipped
    only when it is no JSON text at all: after ["not-json"] the scan goes
    on to the next invocation and returns its [pin]; after ["null"] or
    ["[]"], which decode, but not to a record, it raises
    [AttributeError] instead of going on. *)
Theorem non_record_payload_not_skipped :
  get_cached_pin_from_conversation Json.loads
    [validate_pin_calls [Json.text "{'pin':'5678'}"]]
  = Returns (PyStr "5678")
  /\ get_cached_pin_from_conversation Json.loads
       [validate_pin_calls ["not-json"; Json.text "{'pin':'5678'}"]]
     = Returns (PyStr "5678")
  /\ Json.loads "null" = Returns PyNone
  /\ get_cached_pin_from_conversation Json.loads
       [validate_pin_calls ["null"; Json.text "{'pin':'5678'}"]]
     = Raises AttributeError
  /\ get_cached_pin_from_conversation Json.loads
       [validate_pin_calls ["[]"; Json.text "{'pin':'5678'}"]]
     = Raises AttributeError.
Proof. repeat apply conj; reflexivity. Qed.

(** X10. On a session identifier without a record the four operations
    leave the state exactly as it is, the clock unread: the account is
    absent, the session is not authenticated, refreshing its activity does
    nothing, and ending it answers false. *)
Lemma unknown_session (clock : nat -> Q) (session_id : string) (w : world) :
  Dict.get session_id (authenticated_sessions w) = None ->
  get_authenticated_account session_id w = (None, w)
  /\ is_authenticated clock session_id w = (false, w)
  /\ update_session_activity clock session_id w = (tt, w)
  /\ end_session session_id w = (false, w).
Proof.
  intros Hget. run_method. unfold Dict.contains. rewrite Hget.
  repeat split.
Qed.

(** ** Further facts about dictionaries *)

Section MoreDictFacts.
Context {V : Type}.
Implicit Types (d : Dict.dict V) (k : string) (v : V).

Lemma dict_del_set k v d : Dict.del k (Dict.set k v d) = Dict.del k d.
Proof.
  induction d as [|[k' v'] d IH]; simpl.
  - now rewrite String.eqb_refl.
  - destruct (String.eqb_spec k' k) as [->|Hne]; simpl.
    + now rewrite String.eqb_refl.
    + destruct (String.eqb_spec k' k); [contradiction | now rewrite IH].
Qed.

Lemma dict_del_absent k d : Dict.get k d = None -> Dict.del k d = d.
Proof.
  induction d as [|[k' v'] d IH]; simpl; [reflexivity|].
  destruct (String.eqb_spec k' k); [discriminate|].
  intros H. now rewrite IH.
Qed.

Lemma dict_set_set k v v' d :
  Dict.set k v' (Dict.set k v d) = Dict.set k v' d.
Proof.
  induction d as [|[k0 v0] d IH]; simpl.
  - now rewrite String.eqb_refl.
  - destruct (String.eqb_spec k0 k) as [->|Hne]; simpl.
    + now rewrite String.eqb_refl.
    + destruct (String.eqb_spec k0 k); [contradiction | now rewrite IH].
Qed.

Lemma dict_keys_del_incl k k' d :
  In k' (Dict.keys (Dict.del k d)) -> In k' (Dict.keys d).
Proof.
  induction d as [|[k0 v0] d IH]; simpl; [tauto|].
  destruct (String.eqb_spec k0 k); simpl; tauto.
Qed.

Lemma dict_keys_get k d :
  In k (Dict.keys d) <-> exists v, Dict.get k d = Some v.
Proof.
  destruct (Dict.get k d) as [v|] eqn:Hget.
  - split; [now exists v|]. intros _.
    apply dict_get_In in Hget. change k with (fst (k, v)). now apply in_map.
  - split; [|intros [v H]; discriminate].
    intros Hin. now apply dict_get_None in Hget.
Qed.

End MoreDictFacts.

(** ** How the operations on the store compose *)

(** X1. Ending a session right after authenticating it answers true and
    leaves the store that ending it directly would have left: the binding
    just made is gone and no earlier binding of the session comes back.
    For a session that had no record, this is the store as it was before
    the authentication. *)
Theorem authenticate_then_end_session (clock : nat -> Q)
    (session_id account_number : string) (w : world) :
  let w1 := after (authenticate_session clock session_id account_number w) in
  let r := end_session session_id w1 in
  result r = true
  /\ authenticated_sessions (after r)
     = authenticated_sessions (after (end_session session_id w))
  /\ (Dict.get session_id (authenticated_sessions w) = None ->
      authenticated_sessions (after r) = authenticated_sessions w).
Proof.
  run_method. unfold Dict.contains. rewrite dict_get_set_same. simpl.
  rewrite dict_del_set. repeat apply conj.
  - reflexivity.
  - destruct (Dict.get session_id (authenticated_sessions w)) eqn:Hget;
      simpl; [reflexivity|]. now apply dict_del_absent.
  - intros Hget. now apply dict_del_absent.
Qed.

Lemma authenticate_then_end_session_witness :
  let w1 := after (authenticate_session ten_minute_clock "s9" "ACC9"
                     three_sessions) in
  let r := end_session "s9" w1 in
  result r = true
  /\ authenticated_sessions (after r) = authenticated_sessions three_sessions.
Proof.
  pose proof (authenticate_then_end_session ten_minute_clock "s9" "ACC9"
                three_sessions) as T.
  cbv zeta in T. destruct T as (Htrue & _ & Hback).
  exact (conj Htrue (Hback eq_refl)).
Defined.

(** X2. Authenticating a session a second time replaces its account and
    its timestamp: the store is the one the second authentication alone
    would have made at its reading of the clock.  The session keeps its
    place, no record is added, and the account of the session is the
    second one. *)
Theorem reauthentication_replaces (clock : nat -> Q)
    (session_id first second : string) (w : world) :
  let w1 := after (authenticate_session clock session_id first w) in
  let w2 := after (authenticate_session clock session_id second w1) in
  let later := {| authenticated_sessions := authenticated_sessions w;
                  time_calls := S (time_calls w) |} in
  w2 = after (authenticate_session clock session_id second later)
  /\ Dict.keys (authenticated_sessions w2) = Dict.keys (authenticated_sessions w1)
  /\ result (get_authenticated_account session_id w2) = Some second.
Proof.
  run_method. rewrite dict_set_set. repeat apply conj.
  - reflexivity.
  - now rewrite !dict_keys_set.
  - now rewrite dict_get_set_same.
Qed.

(** X3. A session that is authenticated has an account: whenever
    [is_authenticated] answers true, [get_authenticated_account] returns
    an account for the same session in the same state. *)
Theorem authenticated_has_account (clock : nat -> Q) (session_id : string)
    (w : world) :
  result (is_authenticated clock session_id w) = true ->
  exists account_number,
    result (get_authenticated_account session_id w) = Some account_number.
Proof.
  run_method.
  destruct (Dict.get session_id (authenticated_sessions w)) as [[a l]|];
    simpl; [|discriminate].
  intros _. now exists a.
Qed.

Lemma authenticated_has_account_witness :
  exists account_number,
    result (get_authenticated_account "s2" three_sessions)
    = Some account_number.
Proof.
  apply (authenticated_has_account stopped_clock "s2" three_sessions).
  reflexivity.
Defined.

(** X4. Without activity, time only takes authentication away.  On the
    same store, a session authenticated at some reading of the clock is
    authenticated at every reading that is not later, and a session the
    clean-up collects at some reading is collected at every reading that is
    not earlier. *)
Theorem expiry_is_monotone (clock : nat -> Q)
    (d : Dict.dict session_record) (session_id : string) (n n' : nat) :
  (clock n <= clock n')%Q ->
  let early := {| authenticated_sessions := d; time_calls := n |} in
  let late := {| authenticated_sessions := d; time_calls := n' |} in
  (result (is_authenticated clock session_id late) = true ->
   result (is_authenticated clock session_id early) = true)
  /\ (In session_id (result (cleanup_expired_sessions clock early)) ->
      In session_id (result (cleanup_expired_sessions clock late))).
Proof.
  intros Hle. run_method. split.
  - destruct (Dict.get session_id d) as [[a l]|]; simpl; [|discriminate].
    intros H. apply (fresh_threshold _ _ _ SESSION_TIMEOUT_seconds).
    apply (fresh_threshold _ _ _ SESSION_TIMEOUT_seconds) in H.
    apply Qle_trans with (clock n' - l)%Q; [|exact H].
    apply Qplus_le_l. exact Hle.
  - unfold Dict.items. rewrite !collect_expired_filter, !in_map_iff.
    intros [e [Hk He]]. exists e. split; [exact Hk|].
    apply filter_In in He as [He Hs]. apply filter_In. split; [exact He|].
    apply stale_iff. apply stale_iff in Hs.
    apply Qlt_le_trans with (clock n - snd (snd e))%Q; [exact Hs|].
    apply Qplus_le_l. exact Hle.
Qed.

Lemma expiry_is_monotone_witness :
  result (is_authenticated ten_minute_clock "s"
            {| authenticated_sessions := authenticated_sessions (one_session 0);
               time_calls := 0 |}) = true.
Proof.
  assert (Hle : (ten_minute_clock 0 <= ten_minute_clock 1)%Q)
    by (vm_compute; discriminate).
  pose proof (expiry_is_monotone ten_minute_clock
                (authenticated_sessions (one_session 0)) "s" 0 1 Hle) as T.
  cbv zeta in T. destruct T as [Hearlier _].
  apply Hearlier. reflexivity.
Defined.

(** X5. The clean-up splits the store in two: every session of the store
    is either returned or kept, never both; no identifier is returned
    twice; and the number of identifiers returned plus the number of
    records kept is the number of records there were. *)
Theorem cleanup_partitions_store (clock : nat -> Q) (w : world)
    (Hwf : Dict.wf (authenticated_sessions w)) :
  let r := cleanup_expired_sessions clock w in
  let kept := Dict.keys (authenticated_sessions (after r)) in
  NoDup (result r)
  /\ List.length (result r) + List.length (authenticated_sessions (after r))
     = List.length (authenticated_sessions w)
  /\ (forall k,
        In k (Dict.keys (authenticated_sessions w)) <->
        In k (result r) \/ In k kept)
  /\ (forall k, In k (result r) -> ~ In k kept).
Proof.
  run_method. set (now := clock (time_calls w)).
  set (d := authenticated_sessions w) in *.
  rewrite (remove_collected now d Hwf). unfold Dict.items.
  rewrite collect_expired_filter. unfold Dict.keys.
  repeat apply conj.
  - exact (dict_wf_filter (stale now) d Hwf).
  - rewrite length_map. apply filter_length.
  - intros k. rewrite !in_map_iff. split.
    + intros [e [Hk He]]. destruct (stale now e) eqn:Hs.
      * left. exists e. split; [exact Hk|]. apply filter_In. now split.
      * right. exists e. split; [exact Hk|]. apply filter_In.
        split; [exact He | now rewrite Hs].
    + intros [[e [Hk He]]|[e [Hk He]]]; exists e; (split; [exact Hk|]);
        now apply filter_In in He.
  - intros k Hret Hkept.
    apply in_map_iff in Hret as [e [Hk He]].
    apply in_map_iff in Hkept as [e' [Hk' He']].
    apply filter_In in He as [He Hs]. apply filter_In in He' as [He' Hs'].
    assert (e = e') by (apply (dict_entry_unique d); congruence).
    subst e'. rewrite Hs in Hs'. discriminate.
Qed.

Lemma cleanup_partitions_store_witness :
  let r := cleanup_expired_sessions stopped_clock three_sessions in
  NoDup (result r)
  /\ List.length (result r) + List.length (authenticated_sessions (after r)) = 3.
Proof.
  assert (Hwf : Dict.wf (authenticated_sessions three_sessions))
    by distinct_keys.
  pose proof (cleanup_partitions_store stopped_clock three_sessions Hwf) as T.
  cbv zeta in T. destruct T as (Hnodup & Hcount & _).
  exact (conj Hnodup Hcount).
Defined.

(** X6. Right after a clean-up, while the clock stands still, the two
    queries agree: a session is authenticated exactly when it has an
    account.  (Before the clean-up a stale session has an account without
    being authenticated.) *)
Theorem cleanup_aligns_queries (clock : nat -> Q) (w : world)
    (Hwf : Dict.wf (authenticated_sessions w))
    (Hstill : (clock (S (time_calls w)) == clock (time_calls w))%Q) :
  let w1 := after (cleanup_expired_sessions clock w) in
  forall session_id,
    result (is_authenticated clock session_id w1) = true <->
    exists account_number,
      result (get_authenticated_account session_id w1) = Some account_number.
Proof.
  intros w1 session_id. subst w1. run_method.
  rewrite (kept_get _ _ _ Hwf).
  destruct (Dict.get session_id (authenticated_sessions w)) as [[a l]|];
    [|split; [discriminate | intros [x H]; discriminate]].
  destruct (stale (clock (time_calls w)) _) eqn:Hs; simpl.
  - split; [discriminate | intros [x H]; discriminate].
  - split; [intros _; now exists a|]. intros _.
    apply (fresh_threshold _ _ _ SESSION_TIMEOUT_seconds). rewrite Hstill.
    now apply fresh_iff in Hs.
Qed.

Lemma cleanup_aligns_queries_witness :
  let w1 := after (cleanup_expired_sessions stopped_clock three_sessions) in
  (result (is_authenticated stopped_clock "s2" w1) = true <->
   exists account_number,
     result (get_authenticated_account "s2" w1) = Some account_number)
  /\ (result (is_authenticated stopped_clock "s1" w1) = true <->
      exists account_number,
        result (get_authenticated_account "s1" w1) = Some account_number).
Proof.
  assert (Hwf : Dict.wf (authenticated_sessions three_sessions))
    by distinct_keys.
  assert (Hstill : (stopped_clock (S (time_calls three_sessions))
                    == stopped_clock (time_calls three_sessions))%Q)
    by reflexivity.
  pose proof (cleanup_aligns_queries stopped_clock three_sessions Hwf Hstill)
    as T.
  cbv zeta in T. exact (conj (T "s2") (T "s1")).
Defined.

(** X7. What a clean-up does to a session just authenticated depends on
    the two readings of the clock alone, through their difference as
    Python computes it.  When that difference exceeds 900 the session is
    returned, its account is gone and ending it answers false; when it
    does not, the session is not returned, it keeps its account and ending
    it answers true.  One of the two always holds. *)
Theorem authenticate_then_cleanup (clock : nat -> Q)
    (session_id account_number : string) (w : world)
    (Hwf : Dict.wf (authenticated_sessions w)) :
  let w1 := after (authenticate_session clock session_id account_number w) in
  let elapsed :=
    Float64.sub (clock (S (time_calls w))) (clock (time_calls w)) in
  let r := cleanup_expired_sessions clock w1 in
  (Float64.ltb 900 elapsed = true ->
   In session_id (result r)
   /\ result (get_authenticated_account session_id (after r)) = None
   /\ result (end_session session_id (after r)) = false)
  /\ (Float64.leb elapsed 900 = true ->
      ~ In session_id (result r)
      /\ result (get_authenticated_account session_id (after r))
         = Some account_number
      /\ result (end_session session_id (after r)) = true)
  /\ Float64.ltb 900 elapsed = negb (Float64.leb elapsed 900).
Proof.
  run_method. unfold Dict.contains.
  set (t0 := clock (time_calls w)). set (t1 := clock (S (time_calls w))).
  set (d1 := Dict.set session_id (account_number, t0) (authenticated_sessions w)).
  assert (Hwf1 : Dict.wf d1) by now apply dict_wf_set.
  assert (Hget : @Dict.get session_record session_id d1
                 = Some (account_number, t0))
    by apply dict_get_set_same.
  rewrite (kept_get t1 d1 session_id Hwf1), Hget.
  split; [|split]; [intros Helapsed | intros Helapsed | apply ltb_negb_leb].
  - destruct (stale t1 _) eqn:Hs.
    + split; [|now split].
      apply (collected_iff t1 d1 session_id Hwf1).
      now exists account_number, t0.
    + rewrite stale_ltb in Hs. simpl in Hs. congruence.
  - destruct (stale t1 _) eqn:Hs.
    + rewrite stale_leb in Hs. simpl in Hs.
      rewrite Helapsed in Hs. discriminate.
    + split; [|now split].
      intros Hin. apply (collected_iff t1 d1 session_id Hwf1) in Hin
        as [a [l [Hg Hlt]]].
      rewrite Hget in Hg. injection Hg as <- <-.
      rewrite ltb_negb_leb, Helapsed in Hlt. discriminate.
Qed.

Lemma authenticate_then_cleanup_witness :
  (let w1 := after (authenticate_session hourly_clock "s" "ACC1" (init 0)) in
   let r := cleanup_expired_sessions hourly_clock w1 in
   In "s" (result r)
   /\ result (get_authenticated_account "s" (after r)) = None
   /\ result (end_session "s" (after r)) = false)
  /\ (let w1 := after (authenticate_session ten_minute_clock "s" "ACC1"
                         (init 0)) in
      let r := cleanup_expired_sessions ten_minute_clock w1 in
      ~ In "s" (result r)
      /\ result (get_authenticated_account "s" (after r)) = Some "ACC1"
      /\ result (end_session "s" (after r)) = true).
Proof.
  split.
  - pose proof (authenticate_then_cleanup hourly_clock "s" "ACC1" (init 0)
                  (wf_init 0)) as T.
    cbv zeta in T. destruct T as (Hstale & _ & _). apply Hstale.
    vm_compute. reflexivity.
  - pose proof (authenticate_then_cleanup ten_minute_clock "s" "ACC1" (init 0)
                  (wf_init 0)) as T.
    cbv zeta in T. destruct T as (_ & Hfresh & _). apply Hfresh.
    vm_compute. reflexivity.
Defined.

(** X8. Only [authenticate_session] brings a session identifier into the
    store, and only the one it is given: after it the identifiers are the
    former ones and that one; refreshing the activity keeps the
    identifiers as they are; ending a session and cleaning up only take
    identifiers away. *)
Theorem only_authenticate_adds_sessions (clock : nat -> Q)
    (session_id account_number : string) (w : world) (k : string) :
  let ids (w' : world) := Dict.keys (authenticated_sessions w') in
  (In k (ids (after (authenticate_session clock session_id account_number w)))
   <-> In k (ids w) \/ k = session_id)
  /\ ids (after (update_session_activity clock session_id w)) = ids w
  /\ (In k (ids (after (end_session session_id w))) -> In k (ids w))
  /\ (In k (ids (after (cleanup_expired_sessions clock w))) -> In k (ids w)).
Proof.
  run_method. split; [|split; [|split]].
  - rewrite dict_keys_set. unfold Dict.contains.
    destruct (Dict.get session_id (authenticated_sessions w)) eqn:Hget;
      cbv iota.
    + split; [tauto|]. intros [H| ->]; [exact H|].
      apply dict_keys_get. eauto.
    + rewrite in_app_iff. simpl. intuition.
  - destruct (Dict.get session_id (authenticated_sessions w)) as [[a l]|] eqn:Hget;
      simpl; [|reflexivity].
    rewrite dict_keys_set. unfold Dict.contains. now rewrite Hget.
  - unfold Dict.contains.
    destruct (Dict.get session_id (authenticated_sessions w)); simpl;
      [apply dict_keys_del_incl | tauto].
  - generalize (collect_expired (clock (time_calls w))
                  (Dict.items (authenticated_sessions w))).
    intros ids. generalize (authenticated_sessions w).
    induction ids as [|i ids IH]; intros d; simpl; [tauto|].
    intros H. apply IH in H.
    destruct (Dict.contains i d); [now apply dict_keys_del_incl in H | exact H].
Qed.

Lemma unknown_session_witness :
  get_authenticated_account "nobody" three_sessions = (None, three_sessions)
  /\ is_authenticated stopped_clock "nobody" three_sessions
     = (false, three_sessions)
  /\ update_session_activity stopped_clock "nobody" three_sessions
     = (tt, three_sessions)
  /\ end_session "nobody" three_sessions = (false, three_sessions).
Proof.
  apply (unknown_session stopped_clock "nobody" three_sessions).
  reflexivity.
Defined.

(** ** What decides a scan *)

Section ScanDecision.
Variable json_loads : string -> raising pyobj.

(** A loop that does not fall through was decided by its first element
    that does not. *)
Lemma for_messages_decisive (msgs : list message) (c : control) :
  for_messages json_loads msgs = c ->
  c <> Fallthrough ->
  exists before msg behind,
    msgs = before ++ msg :: behind
    /\ Forall (unmatched json_loads) before
    /\ message_step json_loads msg = c.
Proof.
  induction msgs as [|m msgs IH]; simpl; intros Hc Hne.
  - congruence.
  - destruct (message_step json_loads m) eqn:Hm; simpl in Hc.
    + destruct (IH Hc Hne) as (before & msg & behind & -> & Hall & Hstep).
      exists (m :: before), msg, behind. repeat split; try assumption.
      constructor; [now apply message_step_fallthrough | exact Hall].
    + exists [], m, msgs. repeat split; [constructor | congruence].
    + exists [], m, msgs. repeat split; [constructor | congruence].
Qed.

Lemma for_tool_calls_decisive (tcs : list tool_call) (c : control) :
  for_tool_calls json_loads tcs = c ->
  c <> Fallthrough ->
  exists pre tc post,
    tcs = pre ++ tc :: post
    /\ Forall (unmatched_call json_loads) pre
    /\ tool_call_step json_loads tc = c.
Proof.
  induction tcs as [|t tcs IH]; simpl; intros Hc Hne.
  - congruence.
  - destruct (tool_call_step json_loads t) eqn:Ht; simpl in Hc.
    + destruct (IH Hc Hne) as (pre & tc & post & -> & Hall & Hstep).
      exists (t :: pre), tc, post. repeat split; try assumption.
      constructor; [now apply tool_call_step_fallthrough | exact Hall].
    + exists [], t, tcs. repeat split; [constructor | congruence].
    + exists [], t, tcs. repeat split; [constructor | congruence].
Qed.

(** The decisive message of a conversation, in the order of the
    conversation. *)
Lemma conversation_decisive (conversation : list message) (c : control) :
  for_messages json_loads (rev conversation) = c ->
  c <> Fallthrough ->
  exists older msg newer,
    conversation = older ++ msg :: newer
    /\ Forall (unmatched json_loads) newer
    /\ message_step json_loads msg = c.
Proof.
  intros Hc Hne.
  destruct (for_messages_decisive _ _ Hc Hne)
    as (before & msg & behind & Hrev & Hall & Hstep).
  exists (rev behind), msg, (rev before). repeat split.
  - rewrite <- (rev_involutive conversation), Hrev.
    rewrite rev_app_distr. simpl. now rewrite <- app_assoc.
  - now apply Forall_rev.
  - exact Hstep.
Qed.

(** A message that does not fall through, read by its role. *)
Lemma message_step_decided (msg : message) (c : control) :
  message_step json_loads msg = c ->
  c <> Fallthrough ->
  (role msg = "user"
   /\ String.length (content msg) = 4
   /\ str_isdigit (content msg) = true
   /\ c = Return (PyStr (content msg)))
  \/ (role msg = "assistant"
      /\ exists tcs,
           tool_calls msg = Some tcs /\ for_tool_calls json_loads tcs = c).
Proof.
  unfold message_step, user_step, assistant_step. intros Hc Hne.
  destruct (String.eqb_spec (role msg) "user") as [Hu|Hu].
  - destruct (String.length (content msg) =? 4) eqn:Hlen;
      destruct (str_isdigit (content msg)) eqn:Hdig; simpl in Hc.
    + left. apply Nat.eqb_eq in Hlen. now repeat split.
    + exfalso. rewrite Hu in Hc. simpl in Hc.
      destruct (tool_calls msg); congruence.
    + exfalso. rewrite Hu in Hc. simpl in Hc.
      destruct (tool_calls msg); congruence.
    + exfalso. rewrite Hu in Hc. simpl in Hc.
      destruct (tool_calls msg); congruence.
  - simpl in Hc. right.
    destruct (tool_calls msg) as [tcs|]; [|congruence].
    destruct (String.eqb_spec (role msg) "assistant") as [Ha|Ha];
      [|congruence].
    split; [exact Ha|]. now exists tcs.
Qed.

Lemma tool_call_step_return (tc : tool_call) (v : pyobj) :
  tool_call_step json_loads tc = Return v ->
  name (function tc) = "validate_pin"
  /\ exists d,
       json_loads (arguments (function tc)) = Returns (PyDict d)
       /\ Dict.get "pin" d = Some v
       /\ truthy v = true.
Proof.
  unfold tool_call_step, try_validate_pin, method_get,
    try_except_JSONDecodeError.
  destruct (String.eqb_spec (name (function tc)) "validate_pin") as [Hn|Hn];
    [|discriminate].
  destruct (json_loads (arguments (function tc))) as [args|e].
  - destruct args as [| | | | | |d]; try discriminate.
    destruct (Dict.get "pin" d) as [pin|] eqn:Hpin; simpl; [|discriminate].
    destruct (truthy pin) eqn:Ht; [|discriminate].
    intros [= <-]. split; [exact Hn|]. now exists d.
  - destruct e; discriminate.
Qed.

End ScanDecision.

Lemma non_record_payload_raises_witness :
  get_cached_pin_from_conversation Json.loads
    [user_message "1234"; validate_pin_message "null"; user_message "ok"]
  = Raises AttributeError.
Proof.
  apply (non_record_payload_raises Json.loads
           [user_message "1234"] [user_message "ok"]
           (validate_pin_message "null") [] []
           {| function := {| name := "validate_pin"; arguments := "null" |} |}
           PyNone).
  - constructor; [|constructor].
    split; [intros _ [H _]; discriminate | discriminate].
  - reflexivity.
  - reflexivity.
  - constructor.
  - reflexivity.
  - reflexivity.
  - intros d. discriminate.
Defined.

(** X12. What the scan returns is never a false value other than [None]:
    it is [None], or the content of a user message of the conversation,
    four digits long, or the [pin] of the record decoded from a
    [validate_pin] invocation of an assistant message of the conversation,
    and then a [pin] of true truth value. *)
Theorem returned_value_origin (json_loads : string -> raising pyobj)
    (conversation : list message) (v : pyobj) :
  get_cached_pin_from_conversation json_loads conversation = Returns v ->
  (v = PyNone
   \/ (exists msg,
         In msg conversation
         /\ role msg = "user"
         /\ v = PyStr (content msg)
         /\ String.length (content msg) = 4
         /\ str_isdigit (content msg) = true)
   \/ (exists msg tcs tc d,
         In msg conversation
         /\ role msg = "assistant"
         /\ tool_calls msg = Some tcs
         /\ In tc tcs
         /\ name (function tc) = "validate_pin"
         /\ json_loads (arguments (function tc)) = Returns (PyDict d)
         /\ Dict.get "pin" d = Some v))
  /\ (v = PyNone \/ truthy v = true).
Proof.
  unfold get_cached_pin_from_conversation.
  destruct (for_messages json_loads (rev conversation)) as [|v'|e] eqn:Hscan;
    try discriminate.
  - intros [= <-]. split; now left.
  - intros [= ->].
    assert (Hne : Return v <> Fallthrough) by discriminate.
    destruct (conversation_decisive json_loads _ _ Hscan Hne)
      as (older & msg & newer & -> & Hnewer & Hstep).
    assert (Hin : In msg (older ++ msg :: newer))
      by (apply in_or_app; right; now left).
    destruct (message_step_decided json_loads _ _ Hstep Hne)
      as [(Hrole & Hlen & Hdig & [= ->])|(Hrole & tcs & Htcs & Hcalls)].
    + split.
      * right. left. exists msg. now repeat split.
      * right. simpl. destruct (content msg); [discriminate | reflexivity].
    + destruct (for_tool_calls_decisive json_loads _ _ Hcalls Hne)
        as (pre & tc & post & -> & Hpre & Hcall).
      apply tool_call_step_return in Hcall
        as (Hname & d & Hloads & Hpin & Htruthy).
      split; [|now right].
      right. right. exists msg, (pre ++ tc :: post), tc, d.
      repeat split; try assumption.
      apply in_or_app. right. now left.
Qed.

Lemma returned_value_origin_witness :
  PyStr "5678" = PyNone \/ truthy (PyStr "5678") = true.
Proof.
  apply (returned_value_origin Json.loads
           [validate_pin_message (Json.text "{'pin':'5678'}")] (PyStr "5678")).
  reflexivity.
Defined.

Lemma message_step_irrelevant (json_loads : string -> raising pyobj)
    (msg : message) :
  relevant msg = false -> message_step json_loads msg = Fallthrough.
Proof.
  unfold relevant, message_step, user_step, assistant_step. intros H.
  apply orb_false_iff in H as [Hu Ha]. rewrite Hu. simpl.
  destruct (tool_calls msg); [|reflexivity].
  rewrite andb_true_r in Ha. now rewrite Ha.
Qed.

(** X13. Messages of a role other than "user" and "assistant", and
    assistant messages without tool invocations, do not count: the scan
    gives the same result on the conversation without them. *)
Theorem irrelevant_messages_ignored (json_loads : string -> raising pyobj)
    (conversation : list message) :
  get_cached_pin_from_conversation json_loads (filter relevant conversation)
  = get_cached_pin_from_conversation json_loads conversation.
Proof.
  unfold get_cached_pin_from_conversation.
  replace (for_messages json_loads (rev (filter relevant conversation)))
    with (for_messages json_loads (rev conversation)); [reflexivity|].
  induction conversation as [|m conversation IH]; simpl; [reflexivity|].
  rewrite for_messages_app. simpl.
  destruct (relevant m) eqn:Hrel; simpl.
  - rewrite for_messages_app. simpl. now rewrite IH.
  - rewrite (message_step_irrelevant json_loads m Hrel), IH.
    now destruct (for_messages json_loads (rev (filter relevant conversation))).
Qed.

(** X14. The scan reads the content of user messages only and the tool
    invocations of assistant messages only: blanking every other content
    and dropping every other list of invocations changes nothing; an
    assistant message that says four digits yields no PIN. *)
Theorem unread_fields_ignored (json_loads : string -> raising pyobj)
    (conversation : list message) :
  get_cached_pin_from_conversation json_loads (map strip_unread conversation)
  = get_cached_pin_from_conversation json_loads conversation.
Proof.
  assert (Hstep : forall m,
             message_step json_loads (strip_unread m)
             = message_step json_loads m).
  { intros m. unfold message_step, user_step, assistant_step, strip_unread.
    simpl.
    destruct (String.eqb_spec (role m) "user") as [Hu|Hu].
    - rewrite Hu. simpl.
      destruct (_ && _); [reflexivity|]. simpl.
      now destruct (tool_calls m).
    - simpl.
      destruct (String.eqb (role m) "assistant"); [reflexivity|].
      now destruct (tool_calls m). }
  unfold get_cached_pin_from_conversation.
  replace (for_messages json_loads (rev (map strip_unread conversation)))
    with (for_messages json_loads (rev conversation)); [reflexivity|].
  rewrite <- map_rev.
  induction (rev conversation) as [|m l IH]; simpl; [reflexivity|].
  now rewrite Hstep, IH.
Qed.

(** X15. A message that is passed over can be taken out of the
    conversation, wherever it stands, without changing the result: a user
    message that is not four digits, for one. *)
Theorem passed_over_message_removed (json_loads : string -> raising pyobj)
    (older newer : list message) (msg : message) :
  unmatched json_loads msg ->
  get_cached_pin_from_conversation json_loads (older ++ msg :: newer)
  = get_cached_pin_from_conversation json_loads (older ++ newer).
Proof.
  intros H. apply message_step_fallthrough in H.
  unfold get_cached_pin_from_conversation.
  rewrite !rev_app_distr. simpl. rewrite <- app_assoc. simpl.
  rewrite !for_messages_app. simpl. now rewrite H.
Qed.

Lemma passed_over_message_removed_witness :
  get_cached_pin_from_conversation Json.loads
    [user_message "4321"; user_message "what is my balance?";
     validate_pin_message "not-json"]
  = get_cached_pin_from_conversation Json.loads
      [user_message "4321"; validate_pin_message "not-json"].
Proof.
  apply (passed_over_message_removed Json.loads [user_message "4321"]
           [validate_pin_message "not-json"]
           (user_message "what is my balance?")).
  split; [intros _ [H _]; discriminate | discriminate].
Defined.
